(** * cliffhangar: extraction, normalisation and row mapping of the
      occupancy object embedded in a script text

    Shallow embedding of [src/cliffhangar.py].  A Python [str] is a
    sequence of Unicode code points, so a character is a number and a
    string a list of them; the library calls the program makes
    ([str.splitlines], [str.strip], [str.replace], [str.join],
    [json.loads], [dict.update], [datetime.isoformat]) are modelled next
    to the four functions of the program that use them. *)

From Stdlib Require Import String Ascii DecimalString.
From Stdlib Require Import List NArith ZArith Lia Bool Arith.
Import ListNotations.

(* ================================================================== *)
(** * Python strings *)
(* ================================================================== *)

Definition char := N.
Definition pystr := list char.

(** An ASCII literal as a Python string. *)
Definition str (s : string) : pystr :=
  List.map N_of_ascii (list_ascii_of_string s).

Definition LF : char := 10%N.       (* line feed *)
Definition CR : char := 13%N.       (* carriage return *)
Definition SPACE : char := 32%N.
Definition DQUOTE : char := 34%N.   (* double quote *)
Definition SQUOTE : char := 39%N.   (* single quote *)
Definition COMMA : char := 44%N.
Definition LBRACE : char := 123%N.  (* opening brace *)
Definition RBRACE : char := 125%N.  (* closing brace *)

Definition char_eqb : char -> char -> bool := N.eqb.

Fixpoint pystr_eqb (a b : pystr) : bool :=
  match a, b with
  | [], [] => true
  | x :: a', y :: b' => char_eqb x y && pystr_eqb a' b'
  | _, _ => false
  end.

(** [s.startswith(p)] *)
Fixpoint startswith (p s : pystr) : bool :=
  match p, s with
  | [], _ => true
  | x :: p', y :: s' => char_eqb x y && startswith p' s'
  | _ :: _, [] => false
  end.

(** [p in s] for strings: [p] occurs as a contiguous run of [s]. *)
Fixpoint contains (p s : pystr) : bool :=
  startswith p s ||
  match s with
  | [] => false
  | _ :: s' => contains p s'
  end.

(** The characters [str.splitlines] treats as line boundaries. *)
Definition is_linebreak (c : char) : bool :=
  existsb (char_eqb c)
    [10; 13; 11; 12; 28; 29; 30; 133; 8232; 8233]%N.

(** The characters [str.strip] removes ([str.isspace]). *)
Definition is_space (c : char) : bool :=
  ((9 <=? c) && (c <=? 13) || (28 <=? c) && (c <=? 32)
   || (c =? 133) || (c =? 160) || (c =? 5760)
   || (8192 <=? c) && (c <=? 8202)
   || (c =? 8232) || (c =? 8233) || (c =? 8239) || (c =? 8287)
   || (c =? 12288))%N.

(** [data.splitlines()]: [cur] is the line read so far.  A carriage
    return directly followed by a line feed is one boundary; a final
    boundary opens no further line. *)
Fixpoint splitlines_from (cur : pystr) (s : pystr) : list pystr :=
  match s with
  | [] => match cur with [] => [] | _ => [cur] end
  | c :: s' =>
      if is_linebreak c then
        cur :: match s' with
               | c' :: s'' =>
                   if char_eqb c CR && char_eqb c' LF
                   then splitlines_from [] s''
                   else splitlines_from [] s'
               | [] => []
               end
      else splitlines_from (cur ++ [c]) s'
  end.

Definition splitlines (s : pystr) : list pystr := splitlines_from [] s.

Fixpoint lstrip (s : pystr) : pystr :=
  match s with
  | c :: s' => if is_space c then lstrip s' else s
  | [] => []
  end.

Definition rstrip (s : pystr) : pystr := rev (lstrip (rev s)).

(** [x.strip()] *)
Definition strip (s : pystr) : pystr := rstrip (lstrip s).

(** [s.replace(old, new)] for a non-empty [old]: occurrences are taken
    left to right and do not overlap; [skip] counts the characters of
    the occurrence just replaced that are still to be passed over. *)
Fixpoint replace_from (old new : pystr) (skip : nat) (s : pystr) : pystr :=
  match s with
  | [] => []
  | c :: s' =>
      match skip with
      | S k => replace_from old new k s'
      | O =>
          if startswith old s
          then new ++ replace_from old new (length old - 1) s'
          else c :: replace_from old new 0 s'
      end
  end.

(** [s.replace(old, new)]; an empty [old] matches before every
    character and at the end. *)
Definition replace (old new s : pystr) : pystr :=
  match old with
  | [] => new ++ flat_map (fun c => c :: new) s
  | _ :: _ => replace_from old new 0 s
  end.

(** [sep.join(parts)] *)
Fixpoint join (sep : pystr) (parts : list pystr) : pystr :=
  match parts with
  | [] => []
  | [p] => p
  | p :: rest => p ++ sep ++ join sep rest
  end.

(** [data[start:stop]] for indices that are not negative; a [start] that
    is [None] reads from the beginning. *)
Definition slice (data : pystr) (start : option nat) (stop : nat) : pystr :=
  let a := match start with Some i => i | None => 0 end in
  firstn (stop - a) (skipn a data).

(* ================================================================== *)
(** * The normaliser and the extractor *)
(* ================================================================== *)

(** The argument of the two replacements in [format_scraped_json]: each
    line trimmed, its single quotes turned into double quotes, the lines
    joined by a line feed. *)
Definition trimmed_lines (data : pystr) : pystr :=
  join [LF]
    (List.map (fun x => replace [SQUOTE] [DQUOTE] (strip x))
       (splitlines data)).

(** [format_scraped_json] *)
Definition format_scraped_json (data : pystr) : pystr :=
  replace (COMMA :: str "    }") [RBRACE]
    (replace [COMMA; LF; RBRACE] [LF; RBRACE] (trimmed_lines data)).

(** The loop of [scrape_occupancy_data]: [rest] is what [enumerate] has
    still to yield, [index] the position of its first character. *)
Fixpoint scrape_loop (data : pystr) (start_index : option nat)
    (unclosed_braces : nat) (index : nat) (rest : pystr) : option pystr :=
  match rest with
  | [] => None
  | c :: rest' =>
      if char_eqb c LBRACE then
        scrape_loop data
          (match start_index with None => Some index | Some _ => start_index end)
          (unclosed_braces + 1) (S index) rest'
      else if char_eqb c RBRACE then
        if unclosed_braces =? 0 then None
        else
          let unclosed_braces := unclosed_braces - 1 in
          if unclosed_braces =? 0
          then Some (format_scraped_json (slice data start_index (index + 1)))
          else scrape_loop data start_index unclosed_braces (S index) rest'
      else scrape_loop data start_index unclosed_braces (S index) rest'
  end.

(** [scrape_occupancy_data] *)
Definition scrape_occupancy_data (data : pystr) : option pystr :=
  scrape_loop data None 0 0 data.

(* ================================================================== *)
(** * Exceptions *)
(* ================================================================== *)

(** What a [json.JSONDecodeError] reports; the position it carries is
    left out. *)
Inductive decode_msg :=
| ExpectingValue
| ExtraData
| UnexpectedBOM
| ExpectingPropertyName
| ExpectingColon
| ExpectingComma
| UnterminatedString
| InvalidControlCharacter
| InvalidEscape
| InvalidUnicodeEscape.

(** The exceptions of the core.  [RecursionError] is what the decoder
    comes to when its fuel is used up, which [json_loads] never lets
    happen. *)
Inductive exn :=
| TypeError
| ValueError
| KeyError (key : pystr)
| RecursionError
| JSONDecodeError (msg : decode_msg).

Inductive result (A : Type) :=
| Ok (a : A)
| Raise (e : exn).
Arguments Ok {A} a.
Arguments Raise {A} e.

Definition bind {A B} (r : result A) (k : A -> result B) : result B :=
  match r with
  | Ok a => k a
  | Raise e => Raise e
  end.

Declare Scope result_scope.
Delimit Scope result_scope with result.
Notation "x <- r ;; k" := (bind r (fun x => k))
  (at level 61, r at next level, right associativity) : result_scope.
Notation "' p <- r ;; k" := (bind r (fun p => k))
  (at level 61, p pattern, r at next level, right associativity) : result_scope.

(* ================================================================== *)
(** * json.loads *)
(* ================================================================== *)

(** The three literals outside the JSON grammar that [json.loads]
    accepts all the same. *)
Inductive constant := NaN | Infinity | NegInfinity.

(** The objects [json.loads] builds.  A number with a fraction or an
    exponent becomes a [float], kept here as the text it was read from;
    a [dict] keeps its keys in the order of their first insertion. *)
#[warnings="-register-all"]
Inductive json :=
| JNull
| JBool (b : bool)
| JInt (z : Z)
| JFloat (lexeme : pystr)
| JConst (c : constant)
| JStr (s : pystr)
| JArray (items : list json)
| JObject (members : list (pystr * json)).

(** [d.get(k)] on an insertion-ordered dictionary with string keys. *)
Fixpoint dict_get {A} (d : list (pystr * A)) (k : pystr) : option A :=
  match d with
  | [] => None
  | (k', v) :: d' => if pystr_eqb k k' then Some v else dict_get d' k
  end.

(** [d[k] = v]: a key already present keeps its place. *)
Fixpoint dict_set {A} (d : list (pystr * A)) (k : pystr) (v : A)
  : list (pystr * A) :=
  match d with
  | [] => [(k, v)]
  | (k', v') :: d' =>
      if pystr_eqb k k' then (k', v) :: d' else (k', v') :: dict_set d' k v
  end.

(** [dict(pairs)] *)
Definition dict_of_pairs {A} (pairs : list (pystr * A)) : list (pystr * A) :=
  fold_left (fun d kv => dict_set d (fst kv) (snd kv)) pairs [].

Definition is_json_ws (c : char) : bool :=
  existsb (char_eqb c) [32; 9; 10; 13]%N.

(** [WHITESPACE.match(s, end).end()]: what is left after the blanks. *)
Fixpoint skip_ws (s : pystr) : pystr :=
  match s with
  | c :: s' => if is_json_ws c then skip_ws s' else s
  | [] => []
  end.

Definition is_digit (c : char) : bool := ((48 <=? c) && (c <=? 57))%N.

Definition hex_value (c : char) : option N :=
  if is_digit c then Some (c - 48)%N
  else if ((97 <=? c) && (c <=? 102))%N then Some (c - 87)%N
  else if ((65 <=? c) && (c <=? 70))%N then Some (c - 55)%N
  else None.

Definition hex4 (a b c d : char) : option N :=
  match hex_value a, hex_value b, hex_value c, hex_value d with
  | Some x, Some y, Some z, Some w => Some (((x * 16 + y) * 16 + z) * 16 + w)%N
  | _, _, _, _ => None
  end.

(** The table [BACKSLASH] of the decoder. *)
Definition backslash (esc : char) : option char :=
  if (esc =? 34)%N then Some 34%N          (* double quote *)
  else if (esc =? 92)%N then Some 92%N     (* backslash *)
  else if (esc =? 47)%N then Some 47%N     (* slash *)
  else if (esc =? 98)%N then Some 8%N      (* b *)
  else if (esc =? 102)%N then Some 12%N    (* f *)
  else if (esc =? 110)%N then Some 10%N    (* n *)
  else if (esc =? 114)%N then Some 13%N    (* r *)
  else if (esc =? 116)%N then Some 9%N     (* t *)
  else None.

Definition is_high_surrogate (u : N) : bool := ((55296 <=? u) && (u <=? 56319))%N.
Definition is_low_surrogate (u : N) : bool := ((56320 <=? u) && (u <=? 57343))%N.

(** [scanstring(s, end, strict=True)], entered after the opening quote:
    the decoded string and what follows its closing quote. *)
Fixpoint scanstring (acc : pystr) (s : pystr) : result (pystr * pystr) :=
  match s with
  | [] => Raise (JSONDecodeError UnterminatedString)
  | c :: s1 =>
      if (c =? 34)%N then Ok (acc, s1)
      else if (c =? 92)%N then
        match s1 with
        | [] => Raise (JSONDecodeError UnterminatedString)
        | esc :: s2 =>
            if (esc =? 117)%N then
              match s2 with
              | h1 :: h2 :: h3 :: h4 :: s6 =>
                  match hex4 h1 h2 h3 h4 with
                  | None => Raise (JSONDecodeError InvalidUnicodeEscape)
                  | Some uni =>
                      match s6 with
                      | b :: u :: s8 =>
                          if is_high_surrogate uni && (b =? 92)%N && (u =? 117)%N
                          then
                            match s8 with
                            | g1 :: g2 :: g3 :: g4 :: s12 =>
                                match hex4 g1 g2 g3 g4 with
                                | None =>
                                    Raise (JSONDecodeError InvalidUnicodeEscape)
                                | Some uni2 =>
                                    if is_low_surrogate uni2
                                    then scanstring
                                           (acc ++ [65536 + ((uni - 55296) * 1024
                                                             + (uni2 - 56320))]%N)
                                           s12
                                    else scanstring (acc ++ [uni]) s6
                                end
                            | _ => Raise (JSONDecodeError InvalidUnicodeEscape)
                            end
                          else scanstring (acc ++ [uni]) s6
                      | _ => scanstring (acc ++ [uni]) s6
                      end
                  end
              | _ => Raise (JSONDecodeError InvalidUnicodeEscape)
              end
            else
              match backslash esc with
              | Some ch => scanstring (acc ++ [ch]) s2
              | None => Raise (JSONDecodeError InvalidEscape)
              end
        end
      else if (c <? 32)%N then Raise (JSONDecodeError InvalidControlCharacter)
      else scanstring (acc ++ [c]) s1
  end.

(** The longest run of digits at the head of [s], and the rest. *)
Fixpoint span_digits (s : pystr) : pystr * pystr :=
  match s with
  | c :: s' =>
      if is_digit c
      then let '(ds, r) := span_digits s' in (c :: ds, r)
      else ([], s)
  | [] => ([], [])
  end.

(** Groups 2 and 3 of [NUMBER_RE]: a dot and digits, then an exponent;
    either is left out when it does not match. *)
Definition match_frac (s : pystr) : pystr * pystr :=
  match s with
  | dot :: s' =>
      if (dot =? 46)%N then
        match span_digits s' with
        | ([], _) => ([], s)
        | (ds, r) => (dot :: ds, r)
        end
      else ([], s)
  | [] => ([], s)
  end.

Definition match_exp (s : pystr) : pystr * pystr :=
  match s with
  | e :: s' =>
      if (e =? 101)%N || (e =? 69)%N then
        let '(sign, s'') :=
          match s' with
          | g :: t => if (g =? 45)%N || (g =? 43)%N then ([g], t) else ([], s')
          | [] => ([], s')
          end in
        match span_digits s'' with
        | ([], _) => ([], s)
        | (ds, r) => (e :: sign ++ ds, r)
        end
      else ([], s)
  | [] => ([], s)
  end.

(** Group 1 of [NUMBER_RE] behind its optional minus: a zero, or digits
    that do not start with one. *)
Definition match_natural (s : pystr) : option (pystr * pystr) :=
  match s with
  | c :: r =>
      if (c =? 48)%N then Some ([c], r)
      else if is_digit c then Some (span_digits s)
      else None
  | [] => None
  end.

(** Group 1 of [NUMBER_RE]. *)
Definition match_integer (s : pystr) : option (pystr * pystr) :=
  match s with
  | c :: t =>
      if (c =? 45)%N then
        match match_natural t with
        | Some (ds, r) => Some (c :: ds, r)
        | None => None
        end
      else match_natural s
  | [] => None
  end.

(** [int(integer)] on the text group 1 matched. *)
Definition int_of_lexeme (l : pystr) : Z :=
  let digits v ds := fold_left (fun a c => (a * 10 + Z.of_N (c - 48))%Z) ds v in
  match l with
  | c :: ds => if (c =? 45)%N then (- digits 0%Z ds)%Z else digits 0%Z l
  | [] => 0%Z
  end.

(** [match_number] and the branch of [scan_once] that uses it. *)
Definition scan_number (s : pystr) : option (json * pystr) :=
  match match_integer s with
  | None => None
  | Some (integer, r1) =>
      let '(frac, r2) := match_frac r1 in
      let '(exp, r3) := match_exp r2 in
      match frac ++ exp with
      | [] => Some (JInt (int_of_lexeme integer), r3)
      | _ => Some (JFloat (integer ++ frac ++ exp), r3)
      end
  end.

(** [s.startswith(lit)], and the rest behind the literal. *)
Definition literal (lit : string) (s : pystr) : option pystr :=
  if startswith (str lit) s then Some (skipn (String.length lit) s) else None.

Section Decoder.

(** Whether [NaN], [Infinity] and [-Infinity] are read; [json.loads]
    reads them. *)
Variable allow_constants : bool.

(** [scan_once], [JSONObject] and [JSONArray] with their loops.  Each
    returns the object read and the text behind it; the [StopIteration]
    of [scan_once] is shown as the [JSONDecodeError] every caller turns
    it into.  [fuel] bounds the depth of the calls; [decode] gives
    enough of it for any text (see [json_loads_raises] below), so the
    recursion limit of the interpreter, which a text nested some hundred
    levels deep exceeds, is not part of the model. *)
Fixpoint scan_once (fuel : nat) (s : pystr) {struct fuel}
  : result (json * pystr) :=
  match fuel with
  | O => Raise RecursionError
  | S fuel =>
      match s with
      | [] => Raise (JSONDecodeError ExpectingValue)
      | nextchar :: s' =>
          if (nextchar =? 34)%N then
            (' (v, r) <- scanstring [] s' ;; Ok (JStr v, r))%result
          else if (nextchar =? 123)%N then JSONObject fuel s'
          else if (nextchar =? 91)%N then JSONArray fuel s'
          else
            match literal "null" s, literal "true" s, literal "false" s with
            | Some r, _, _ => Ok (JNull, r)
            | _, Some r, _ => Ok (JBool true, r)
            | _, _, Some r => Ok (JBool false, r)
            | None, None, None =>
                match scan_number s with
                | Some res => Ok res
                | None =>
                    if allow_constants then
                      match literal "NaN" s, literal "Infinity" s,
                            literal "-Infinity" s with
                      | Some r, _, _ => Ok (JConst NaN, r)
                      | _, Some r, _ => Ok (JConst Infinity, r)
                      | _, _, Some r => Ok (JConst NegInfinity, r)
                      | None, None, None => Raise (JSONDecodeError ExpectingValue)
                      end
                    else Raise (JSONDecodeError ExpectingValue)
                end
            end
      end
  end

with JSONObject (fuel : nat) (s : pystr) {struct fuel}
  : result (json * pystr) :=
  match fuel with
  | O => Raise RecursionError
  | S fuel =>
      match skip_ws s with
      | nextchar :: r =>
          if (nextchar =? 125)%N then Ok (JObject [], r)
          else if (nextchar =? 34)%N then object_members fuel [] r
          else Raise (JSONDecodeError ExpectingPropertyName)
      | [] => Raise (JSONDecodeError ExpectingPropertyName)
      end
  end

(** The [while True] of [JSONObject], entered behind the opening quote
    of a key. *)
with object_members (fuel : nat) (pairs : list (pystr * json)) (s : pystr)
  {struct fuel} : result (json * pystr) :=
  match fuel with
  | O => Raise RecursionError
  | S fuel =>
      (' (key, r) <- scanstring [] s ;;
       match skip_ws r with
       | colon :: r =>
           if (colon =? 58)%N then
             ' (value, r) <- scan_once fuel (skip_ws r) ;;
             let pairs := pairs ++ [(key, value)] in
             match skip_ws r with
             | nextchar :: r =>
                 if (nextchar =? 125)%N
                 then Ok (JObject (dict_of_pairs pairs), r)
                 else if (nextchar =? 44)%N then
                   match skip_ws r with
                   | quote :: r =>
                       if (quote =? 34)%N then object_members fuel pairs r
                       else Raise (JSONDecodeError ExpectingPropertyName)
                   | [] => Raise (JSONDecodeError ExpectingPropertyName)
                   end
                 else Raise (JSONDecodeError ExpectingComma)
             | [] => Raise (JSONDecodeError ExpectingComma)
             end
           else Raise (JSONDecodeError ExpectingColon)
       | [] => Raise (JSONDecodeError ExpectingColon)
       end)%result
  end

with JSONArray (fuel : nat) (s : pystr) {struct fuel}
  : result (json * pystr) :=
  match fuel with
  | O => Raise RecursionError
  | S fuel =>
      match skip_ws s with
      | nextchar :: r =>
          if (nextchar =? 93)%N then Ok (JArray [], r)
          else array_items fuel [] (nextchar :: r)
      | [] => array_items fuel [] []
      end
  end

(** The [while True] of [JSONArray]. *)
with array_items (fuel : nat) (values : list json) (s : pystr)
  {struct fuel} : result (json * pystr) :=
  match fuel with
  | O => Raise RecursionError
  | S fuel =>
      (' (value, r) <- scan_once fuel s ;;
       let values := values ++ [value] in
       match skip_ws r with
       | nextchar :: r =>
           if (nextchar =? 93)%N then Ok (JArray values, r)
           else if (nextchar =? 44)%N then array_items fuel values (skip_ws r)
           else Raise (JSONDecodeError ExpectingComma)
       | [] => Raise (JSONDecodeError ExpectingComma)
       end)%result
  end.

(** [JSONDecoder.decode]: one value, blanks around it, nothing else. *)
Definition decode (s : pystr) : result json :=
  (' (obj, r) <- scan_once (3 * length s + 1) (skip_ws s) ;;
   match skip_ws r with
   | [] => Ok obj
   | _ :: _ => Raise (JSONDecodeError ExtraData)
   end)%result.

End Decoder.

(** [json.loads(s)] for the two kinds of argument the program passes: a
    [str], or [None]. *)
Definition json_loads (s : option pystr) : result json :=
  match s with
  | None => Raise TypeError
  | Some s =>
      if startswith [65279%N] s then Raise (JSONDecodeError UnexpectedBOM)
      else decode true s
  end.


(* ================================================================== *)
(** * str() and the clock *)
(* ================================================================== *)

(** [repr] of the objects whose [str] is their [repr] (a float, a list,
    a dict): not computed here, a parameter of the development. *)
Class Repr := py_repr : json -> pystr.

Definition decimal (z : Z) : pystr := str (NilZero.string_of_int (Z.to_int z)).

(** [str(x)] for an object read by [json.loads]. *)
Definition py_str `{Repr} (x : json) : pystr :=
  match x with
  | JNull => str "None"
  | JBool true => str "True"
  | JBool false => str "False"
  | JInt z => decimal z
  | JConst NaN => str "nan"
  | JConst Infinity => str "inf"
  | JConst NegInfinity => str "-inf"
  | JStr s => s
  | JFloat _ | JArray _ | JObject _ => py_repr x
  end.

(** What [datetime.now()] returns: a date and a time without zone. *)
Record datetime := {
  year : nat; month : nat; day : nat;
  hour : nat; minute : nat; second : nat; microsecond : nat
}.

(** ["%0<width>d" % n] *)
Definition zero_padded (width n : nat) : pystr :=
  let d := str (NilZero.string_of_uint (Nat.to_uint n)) in
  repeat 48%N (width - length d) ++ d.

(** [dt.isoformat(sep)]: the microseconds are written only when they are
    not zero. *)
Definition isoformat (sep : pystr) (dt : datetime) : pystr :=
  zero_padded 4 (year dt) ++ str "-" ++ zero_padded 2 (month dt) ++ str "-"
  ++ zero_padded 2 (day dt) ++ sep
  ++ zero_padded 2 (hour dt) ++ str ":" ++ zero_padded 2 (minute dt) ++ str ":"
  ++ zero_padded 2 (second dt)
  ++ (if microsecond dt =? 0 then [] else str "." ++ zero_padded 6 (microsecond dt)).

(* ================================================================== *)
(** * The row mapper and the pipeline *)
(* ================================================================== *)

(** What [values] holds under a facility code: the object [update]
    copied from the parsed data, or the [defaultdict(str)] the default
    factory made when the code was first looked up and missing. *)
Inductive facility :=
| Parsed (v : json)
| Fresh (fields : list (pystr * pystr)).

Definition store := list (pystr * facility).

(** One element of the sequence [dict.update] is given, as a key and a
    value: a list, a string or a dict of length two. *)
Definition as_pair (e : json) : result (json * json) :=
  match e with
  | JArray [k; v] => Ok (k, v)
  | JStr [a; b] => Ok (JStr [a], JStr [b])
  | JObject [(k1, _); (k2, _)] => Ok (JStr k1, JStr k2)
  | JArray _ | JStr _ | JObject _ => Raise ValueError
  | JNull | JBool _ | JInt _ | JFloat _ | JConst _ => Raise TypeError
  end.

(** [values[k] = v] inside [update].  A list or a dict cannot be a key;
    a key that is no string is stored by Python and left out here: it
    equals no facility code, and only those are looked up. *)
Definition store_item (values : store) (k v : json) : result store :=
  match k with
  | JStr k => Ok (dict_set values k (Parsed v))
  | JArray _ | JObject _ => Raise TypeError
  | JNull | JBool _ | JInt _ | JFloat _ | JConst _ => Ok values
  end.

(** [values.update(other)]: from a dict, or from an iterable of pairs. *)
Definition dict_update (values : store) (other : json) : result store :=
  match other with
  | JObject members =>
      Ok (fold_left (fun d kv => dict_set d (fst kv) (Parsed (snd kv)))
            members values)
  | JArray items =>
      fold_left
        (fun acc e =>
           (d <- acc ;; ' (k, v) <- as_pair e ;; store_item d k v)%result)
        items (Ok values)
  | JStr [] => Ok values
  | JStr (_ :: _) => Raise ValueError
  | JNull | JBool _ | JInt _ | JFloat _ | JConst _ => Raise TypeError
  end.

(** A computation that reads and extends [values] and may raise. *)
Definition lookup (A : Type) := store -> result (A * store).

Definition ret {A} (a : A) : lookup A := fun values => Ok (a, values).

(** The elements of a list display, evaluated from left to right. *)
Fixpoint display {A} (elements : list (lookup A)) : lookup (list A) :=
  fun values =>
    match elements with
    | [] => Ok ([], values)
    | e :: rest =>
        (' (x, values) <- e values ;;
         ' (xs, values) <- display rest values ;;
         Ok (x :: xs, values))%result
    end.

(** [x[field]] on a [defaultdict(str)] stored under [code]. *)
Definition fresh_field (code field : pystr) (fields : list (pystr * pystr))
  : lookup json :=
  fun values =>
    match dict_get fields field with
    | Some x => Ok (JStr x, values)
    | None => Ok (JStr [], dict_set values code (Fresh (dict_set fields field [])))
    end.

(** [values[code][field]] *)
Definition subscript (code field : pystr) : lookup json :=
  fun values =>
    match dict_get values code with
    | Some (Parsed (JObject members)) =>
        match dict_get members field with
        | Some x => Ok (x, values)
        | None => Raise (KeyError field)
        end
    | Some (Parsed _) => Raise TypeError
    | Some (Fresh fields) => fresh_field code field fields values
    | None => fresh_field code field [] (dict_set values code (Fresh []))
    end.

Section Pipeline.
Context `{Repr}.

(** [str(values[code][field])] *)
Definition cell (code field : string) : lookup pystr :=
  fun values =>
    (' (x, values) <- subscript (str code) (str field) values ;;
     Ok (py_str x, values))%result.

(** [json_to_row]; [now] is what the clock reads. *)
Definition json_to_row (now : datetime) (data : option pystr)
  : result (list pystr) :=
  (parsed <- json_loads data ;;
   values <- dict_update [] parsed ;;
   ' (row, _) <-
     display [
       ret (isoformat [SPACE] now);
       cell "ARC" "count";
       cell "ARC" "capacity";
       cell "ERV" "count";
       cell "ERV" "capacity";
       cell "HDS" "count";
       cell "HDS" "capacity";
       cell "LON" "count";
       cell "LON" "capacity";
       cell "MVJ" "count";
       cell "MVJ" "capacity";
       cell "RCU" "count";
       cell "RCU" "capacity";
       cell "RIV" "count";
       cell "RIV" "capacity";
       cell "SCL" "count";
       cell "SCL" "capacity";
       cell "SPB" "count";
       cell "SPB" "capacity";
       cell "UPL" "count";
       cell "UPL" "capacity"
     ] values ;;
   Ok row)%result.

(** [scrape_script] *)
Definition scrape_script (now : datetime) (script : pystr)
  : result (list pystr) :=
  json_to_row now (scrape_occupancy_data script).

End Pipeline.

(* ================================================================== *)
(** * Balanced spans *)
(* ================================================================== *)

Definition is_brace (c : char) : bool := char_eqb c LBRACE || char_eqb c RBRACE.

(** No brace occurs in [s]. *)
Definition brace_free (s : pystr) : Prop :=
  forallb (fun c => negb (is_brace c)) s = true.

(** Text whose braces are paired: nothing, a character that is no brace
    before balanced text, or a braced balanced text before balanced
    text. *)
Inductive balanced : pystr -> Prop :=
| balanced_nil : balanced []
| balanced_char c s : is_brace c = false -> balanced s -> balanced (c :: s)
| balanced_nest s t :
    balanced s -> balanced t -> balanced (LBRACE :: s ++ RBRACE :: t).

(** [data] holds a balanced top-level span: its first brace opens, and
    the brace that matches it is there. *)
Definition has_span (data : pystr) : Prop :=
  exists pre body post,
    data = pre ++ LBRACE :: body ++ RBRACE :: post
    /\ brace_free pre /\ balanced body.

(** The first brace of [data] opens and nothing closes it. *)
Definition unclosed (data : pystr) : Prop :=
  exists pre rest,
    data = pre ++ LBRACE :: rest /\ brace_free pre
    /\ forall body post, rest = body ++ RBRACE :: post -> ~ balanced body.

(** A closing brace comes before any opening one. *)
Definition close_first (data : pystr) : Prop :=
  exists pre post,
    data = pre ++ RBRACE :: post /\ ~ In LBRACE pre.

(** [d + 1] closing braces, each behind balanced text: what the loop
    reads from depth [d + 1] until the depth is back at zero. *)
Fixpoint closing (d : nat) (s : pystr) : Prop :=
  match d with
  | O => exists b, s = b ++ [RBRACE] /\ balanced b
  | S d' => exists b t, s = b ++ RBRACE :: t /\ balanced b /\ closing d' t
  end.

(** [p] occurs in [s] as a contiguous run. *)
Definition occurs (p s : pystr) : Prop := exists a b, s = a ++ p ++ b.


(* ================================================================== *)
(** * The row read off the parsed record *)
(* ================================================================== *)

(** The facility codes and the subscripts of the list display of
    [json_to_row], in its order. *)
Definition facility_codes : list string :=
  ["ARC"; "ERV"; "HDS"; "LON"; "MVJ"; "RCU"; "RIV"; "SCL"; "SPB"; "UPL"]%string.

Definition slots : list (string * string) :=
  flat_map (fun code => [(code, "count"); (code, "capacity")]%string)
    facility_codes.

(** The results of [f] on the elements of [l], up to the first that
    raises. *)
Fixpoint collect {A B} (f : A -> result B) (l : list A) : result (list B) :=
  match l with
  | [] => Ok []
  | a :: l' => (x <- f a ;; xs <- collect f l' ;; Ok (x :: xs))%result
  end.

(** What [str(values[code][field])] comes to, as a function of [values]
    that changes nothing. *)
Definition store_value `{Repr} (values : store) (code field : pystr)
  : result pystr :=
  match dict_get values code with
  | Some (Parsed (JObject members)) =>
      match dict_get members field with
      | Some x => Ok (py_str x)
      | None => Raise (KeyError field)
      end
  | Some (Parsed _) => Raise TypeError
  | Some (Fresh fields) =>
      Ok (match dict_get fields field with Some x => x | None => [] end)
  | None => Ok []
  end.

(** The same for the dict [json.loads] returned: the string of the field
    of a facility code that is present, the empty string for one that is
    absent. *)
Definition field_value `{Repr} (record : list (pystr * json))
    (code field : pystr) : result pystr :=
  match dict_get record code with
  | Some (JObject members) =>
      match dict_get members field with
      | Some x => Ok (py_str x)
      | None => Raise (KeyError field)
      end
  | Some _ => Raise TypeError
  | None => Ok []
  end.

(** Every facility code of the row that the record holds maps to a dict
    with both fields. *)
Definition complete (record : list (pystr * json)) : Prop :=
  forall code, In code facility_codes ->
    match dict_get record (str code) with
    | Some (JObject members) =>
        dict_get members (str "count") <> None
        /\ dict_get members (str "capacity") <> None
    | Some _ => False
    | None => True
    end.

(* ================================================================== *)
(** * Values for the examples *)
(* ================================================================== *)

(** An ASCII literal in which a single quote stands for a double one. *)
Definition dq (s : string) : pystr := replace [SQUOTE] [DQUOTE] (str s).

(** A reading of the clock. *)
Definition a_clock : datetime :=
  {| year := 2020; month := 7; day := 4;
     hour := 9; minute := 30; second := 5; microsecond := 1200 |}.

(** A [repr] for the examples, none of which holds a float, a list or a
    dict in a cell. *)
Definition a_repr : Repr := fun _ => str "<object>".

(* ================================================================== *)
(** * Properties of the extractor *)
(* ================================================================== *)

Lemma char_eqb_eq (a b : char) : char_eqb a b = true <-> a = b.
Proof. apply N.eqb_eq. Qed.

Lemma char_eqb_neq (a b : char) : char_eqb a b = false <-> a <> b.
Proof. apply N.eqb_neq. Qed.

Lemma is_brace_false (c : char) :
  is_brace c = false -> char_eqb c LBRACE = false /\ char_eqb c RBRACE = false.
Proof. unfold is_brace. apply orb_false_elim. Qed.

Lemma brace_free_cons (c : char) (s : pystr) :
  brace_free (c :: s) <-> is_brace c = false /\ brace_free s.
Proof.
  unfold brace_free; simpl. rewrite andb_true_iff, negb_true_iff. tauto.
Qed.

(** One turn of the loop on a character that is no brace. *)
Lemma scrape_loop_other data st u i c rest :
  is_brace c = false ->
  scrape_loop data st u i (c :: rest) = scrape_loop data st u (S i) rest.
Proof.
  intros Hc. apply is_brace_false in Hc as [Ho Hc]. simpl.
  now rewrite Ho, Hc.
Qed.

Lemma scrape_loop_open data st u i rest :
  scrape_loop data (Some st) u i (LBRACE :: rest)
  = scrape_loop data (Some st) (S u) (S i) rest.
Proof. simpl. now rewrite Nat.add_1_r. Qed.

Lemma scrape_loop_close data st u i rest :
  scrape_loop data st (S (S u)) i (RBRACE :: rest)
  = scrape_loop data st (S u) (S i) rest.
Proof. reflexivity. Qed.

Lemma scrape_loop_brace_free data st u pre :
  brace_free pre ->
  forall i rest,
    scrape_loop data st u i (pre ++ rest)
    = scrape_loop data st u (i + length pre) rest.
Proof.
  induction pre as [|c pre IH]; intros Hp i rest.
  - simpl. now rewrite Nat.add_0_r.
  - apply brace_free_cons in Hp as [Hc Hp].
    rewrite <- app_comm_cons, scrape_loop_other by exact Hc.
    rewrite (IH Hp). f_equal. simpl. lia.
Qed.

(** Inside a span the loop reads balanced text without returning and
    without changing the depth. *)
Lemma scrape_loop_balanced data st body :
  balanced body ->
  forall u i rest,
    scrape_loop data (Some st) (S u) i (body ++ rest)
    = scrape_loop data (Some st) (S u) (i + length body) rest.
Proof.
  induction 1 as [|c s Hc _ IH|s t _ IHs _ IHt]; intros u i rest.
  - simpl. now rewrite Nat.add_0_r.
  - rewrite <- app_comm_cons, scrape_loop_other by exact Hc.
    rewrite IH. f_equal. simpl. lia.
  - rewrite <- app_comm_cons, scrape_loop_open, <- app_assoc, IHs.
    rewrite <- app_comm_cons, scrape_loop_close, IHt.
    f_equal. simpl. rewrite length_app. simpl. lia.
Qed.

Lemma slice_span (pre body post : pystr) :
  slice (pre ++ LBRACE :: body ++ RBRACE :: post) (Some (length pre))
    (length pre + S (length body) + 1)
  = LBRACE :: body ++ [RBRACE].
Proof.
  unfold slice.
  rewrite skipn_app, skipn_all, Nat.sub_diag. simpl skipn. simpl app.
  replace (length pre + S (length body) + 1 - length pre)
    with (S (length body + 1)) by lia.
  simpl. f_equal.
  rewrite firstn_app, firstn_all2 by lia.
  replace (length body + 1 - length body) with 1 by lia. reflexivity.
Qed.

(** The extractor on an input that holds a span. *)
Lemma scrape_span (pre body post : pystr) :
  brace_free pre -> balanced body ->
  scrape_occupancy_data (pre ++ LBRACE :: body ++ RBRACE :: post)
  = Some (format_scraped_json (LBRACE :: body ++ [RBRACE])).
Proof.
  intros Hp Hb. unfold scrape_occupancy_data.
  rewrite scrape_loop_brace_free by exact Hp. simpl plus.
  set (data := pre ++ LBRACE :: body ++ RBRACE :: post).
  change (scrape_loop data None 0 (length pre) (LBRACE :: body ++ RBRACE :: post))
    with (scrape_loop data (Some (length pre)) (0 + 1) (S (length pre))
            (body ++ RBRACE :: post)).
  simpl plus. rewrite scrape_loop_balanced by exact Hb.
  simpl. do 2 f_equal. subst data.
  etransitivity; [|apply (slice_span pre body post)]. f_equal. lia.
Qed.

Lemma closing_char (c : char) (s : pystr) (d : nat) :
  is_brace c = false -> closing d s -> closing d (c :: s).
Proof.
  intros Hc. destruct d; simpl.
  - intros (b & -> & Hb). exists (c :: b). split; [reflexivity|].
    now apply balanced_char.
  - intros (b & t & -> & Hb & Ht). exists (c :: b), t.
    repeat split; trivial. now apply balanced_char.
Qed.

Lemma closing_nest (b t : pystr) (d : nat) :
  balanced b -> closing d t -> closing d (LBRACE :: b ++ RBRACE :: t).
Proof.
  intros Hb. destruct d; simpl.
  - intros (b' & -> & Hb'). exists (LBRACE :: b ++ RBRACE :: b'). split.
    + simpl. f_equal. now rewrite <- app_assoc.
    + now apply balanced_nest.
  - intros (b' & t' & -> & Hb' & Ht'). exists (LBRACE :: b ++ RBRACE :: b'), t'.
    repeat split; trivial.
    + simpl. f_equal. now rewrite <- app_assoc.
    + now apply balanced_nest.
Qed.

(** When the loop, inside a span, returns a text, it has read up to the
    brace that brings the depth back to zero. *)
Lemma scrape_loop_inside data st rest :
  forall u i x,
    scrape_loop data (Some st) (S u) i rest = Some x ->
    exists consumed post,
      rest = consumed ++ post /\ closing u consumed
      /\ x = format_scraped_json (slice data (Some st) (i + length consumed)).
Proof.
  induction rest as [|c rest IH]; intros u i x Hx; [discriminate|].
  destruct (is_brace c) eqn:Hc.
  - unfold is_brace in Hc. apply orb_true_iff in Hc as [Hc|Hc];
      apply char_eqb_eq in Hc; subst c.
    + rewrite scrape_loop_open in Hx.
      apply IH in Hx as (consumed & post & -> & Hcl & ->).
      simpl in Hcl. destruct Hcl as (b & t & -> & Hb & Ht).
      exists (LBRACE :: b ++ RBRACE :: t), post. repeat split.
      * now apply closing_nest.
      * do 2 f_equal. simpl. lia.
    + destruct u as [|u].
      * simpl in Hx. injection Hx as <-.
        exists [RBRACE], rest. repeat split.
        exists []. split; [reflexivity | constructor].
      * rewrite scrape_loop_close in Hx.
        apply IH in Hx as (consumed & post & -> & Hcl & ->).
        exists (RBRACE :: consumed), post. repeat split.
        -- simpl. exists [], consumed. repeat split; [constructor | exact Hcl].
        -- do 2 f_equal. simpl. lia.
  - rewrite scrape_loop_other in Hx by exact Hc.
    apply IH in Hx as (consumed & post & -> & Hcl & ->).
    exists (c :: consumed), post. repeat split.
    + now apply closing_char.
    + do 2 f_equal. simpl. lia.
Qed.

(** When the loop returns a text, the input holds a span. *)
Lemma scrape_loop_outside data rest :
  forall i x,
    scrape_loop data None 0 i rest = Some x ->
    exists pre body post,
      rest = pre ++ LBRACE :: body ++ RBRACE :: post
      /\ brace_free pre /\ balanced body.
Proof.
  induction rest as [|c rest IH]; intros i x Hx; [discriminate|].
  destruct (is_brace c) eqn:Hc.
  - unfold is_brace in Hc. apply orb_true_iff in Hc as [Hc|Hc];
      apply char_eqb_eq in Hc; subst c.
    + change (scrape_loop data (Some i) (S 0) (S i) rest = Some x) in Hx.
      apply scrape_loop_inside in Hx as (consumed & post & -> & (b & -> & Hb) & _).
      exists [], b, post. repeat split; trivial.
      simpl. f_equal. now rewrite <- app_assoc.
    + discriminate.
  - rewrite scrape_loop_other in Hx by exact Hc.
    apply IH in Hx as (pre & body & post & -> & Hp & Hb).
    exists (c :: pre), body, post. repeat split; trivial.
    now apply brace_free_cons.
Qed.

Lemma scrape_some_has_span data x :
  scrape_occupancy_data data = Some x -> has_span data.
Proof. apply scrape_loop_outside. Qed.

Lemma has_span_scrape data :
  has_span data -> exists x, scrape_occupancy_data data = Some x.
Proof.
  intros (pre & body & post & -> & Hp & Hb). eexists. now apply scrape_span.
Qed.

Lemma scrape_none_iff_no_span data :
  scrape_occupancy_data data = None <-> ~ has_span data.
Proof.
  split.
  - intros Hn Hs. apply has_span_scrape in Hs as [x Hx]. congruence.
  - intros Hs. destruct (scrape_occupancy_data data) eqn:Hx; [|reflexivity].
    exfalso. apply Hs. eapply scrape_some_has_span; eauto.
Qed.

(** Up to the first closing brace that no opening brace precedes, the
    depth is zero, and there the loop returns [None]. *)
Lemma scrape_loop_close_first data pre post :
  ~ In LBRACE pre ->
  forall i, scrape_loop data None 0 i (pre ++ RBRACE :: post) = None.
Proof.
  induction pre as [|c pre IH]; intros Hp i; [reflexivity|].
  simpl. destruct (char_eqb c LBRACE) eqn:Ho.
  - apply char_eqb_eq in Ho. subst c. exfalso. apply Hp. now left.
  - destruct (char_eqb c RBRACE); [reflexivity|].
    apply IH. intros Hin. apply Hp. now right.
Qed.

(** Every text is free of braces or has a first brace. *)
Lemma first_brace (s : pystr) :
  brace_free s \/
  exists pre c rest, s = pre ++ c :: rest /\ brace_free pre /\ is_brace c = true.
Proof.
  induction s as [|c s [IH|(pre & c' & rest & -> & Hp & Hc')]].
  - now left.
  - destruct (is_brace c) eqn:Hc.
    + right. exists [], c, s. now repeat split.
    + left. now apply brace_free_cons.
  - destruct (is_brace c) eqn:Hc.
    + right. exists [], c, (pre ++ c' :: rest). now repeat split.
    + right. exists (c :: pre), c', rest. repeat split; trivial.
      now apply brace_free_cons.
Qed.

Lemma brace_free_no_open (s : pystr) : brace_free s -> ~ In LBRACE s.
Proof.
  induction s as [|c s IH]; intros Hs Hin; [exact Hin|].
  apply brace_free_cons in Hs as [Hc Hs]. destruct Hin as [->|Hin].
  - discriminate.
  - now apply IH.
Qed.

Lemma brace_free_no_span (data : pystr) : brace_free data -> ~ has_span data.
Proof.
  intros Hf (pre & body & post & -> & _ & _).
  apply (brace_free_no_open _ Hf). apply in_or_app. right. now left.
Qed.

Lemma close_first_no_span (data : pystr) : close_first data -> ~ has_span data.
Proof.
  intros (pre & post & -> & Hp). apply scrape_none_iff_no_span.
  now apply scrape_loop_close_first.
Qed.

Lemma unclosed_no_span (data : pystr) : unclosed data -> ~ has_span data.
Proof.
  intros (pre & rest & -> & Hp & Hr). apply scrape_none_iff_no_span.
  unfold scrape_occupancy_data. rewrite scrape_loop_brace_free by exact Hp.
  set (data := pre ++ LBRACE :: rest). simpl plus.
  change (scrape_loop data None 0 (length pre) (LBRACE :: rest))
    with (scrape_loop data (Some (length pre)) (S 0) (S (length pre)) rest).
  destruct (scrape_loop data (Some (length pre)) 1 (S (length pre)) rest) eqn:Hx;
    [|reflexivity].
  apply scrape_loop_inside in Hx as (consumed & post & -> & (b & -> & Hb) & _).
  exfalso. apply (Hr b post); [|exact Hb]. now rewrite <- app_assoc.
Qed.

(** C2: the extractor returns [None], and raises nothing, exactly when
    the input holds no balanced top-level span; that is the case exactly
    for the empty input, the inputs free of braces, those whose first
    opening brace is never closed, and those where a closing brace comes
    before any opening one. *)
Theorem scrape_occupancy_data_not_found (data : pystr) :
  (scrape_occupancy_data data = None <-> ~ has_span data)
  /\ (scrape_occupancy_data data = None <->
      data = [] \/ brace_free data \/ unclosed data \/ close_first data).
Proof.
  split; [apply scrape_none_iff_no_span|].
  rewrite scrape_none_iff_no_span. split.
  - intros Hs. destruct (first_brace data)
      as [Hf|(pre & c & rest & -> & Hp & Hc)]; [tauto|].
    unfold is_brace in Hc. apply orb_true_iff in Hc as [Hc|Hc];
      apply char_eqb_eq in Hc; subst c.
    + right; right; left. exists pre, rest. repeat split; trivial.
      intros body post -> Hb. apply Hs. now exists pre, body, post.
    + right; right; right. exists pre, rest. split; trivial.
      now apply brace_free_no_open.
  - intros [->|[Hf|[Hu|Hc]]].
    + now apply brace_free_no_span.
    + now apply brace_free_no_span.
    + now apply unclosed_no_span.
    + now apply close_first_no_span.
Qed.

(** The four kinds of input of C2 on examples: nothing, no brace, a
    brace left open, a closing brace first. *)
Example scrape_not_found_examples :
  List.map scrape_occupancy_data
    [ []; str "var data = 1;"; str "{a{b}c"; str "}{a}" ]
  = [None; None; None; None].
Proof. reflexivity. Qed.

(** C4, as the code has it: on an input that holds a balanced top-level
    span the extractor returns the normalised form of the text from the
    first opening brace to the brace that matches it; it is that text
    itself exactly when normalising does not change it. *)
Theorem scrape_occupancy_data_span (pre body post : pystr) :
  brace_free pre -> balanced body ->
  let span := LBRACE :: body ++ [RBRACE] in
  scrape_occupancy_data (pre ++ LBRACE :: body ++ RBRACE :: post)
  = Some (format_scraped_json span)
  /\ (scrape_occupancy_data (pre ++ LBRACE :: body ++ RBRACE :: post) = Some span
      <-> format_scraped_json span = span).
Proof.
  intros Hp Hb span. rewrite scrape_span by assumption. fold span.
  split; [reflexivity|]. split; intros E; [now injection E | now rewrite E].
Qed.

Lemma scrape_occupancy_data_span_witness :
  scrape_occupancy_data (str "var data = {'a': {'b': 1}};")
  = Some (format_scraped_json (str "{'a': {'b': 1}}")).
Proof.
  apply (scrape_occupancy_data_span
           (str "var data = ") (str "'a': {'b': 1}") (str ";")).
  - reflexivity.
  - do 5 (apply balanced_char; [reflexivity|]).
    apply (balanced_nest (str "'b': 1") []).
    + do 6 (apply balanced_char; [reflexivity|]). apply balanced_nil.
    + apply balanced_nil.
Defined.

(** C4 as the claim states it fails: the span of this input holds single
    quotes, and the text returned holds double quotes in their place. *)
Lemma scrape_occupancy_data_span_not_verbatim :
  let data := str "x = {'a'};" in
  let span := str "{'a'}" in
  data = str "x = " ++ span ++ str ";"
  /\ balanced (str "'a'")
  /\ scrape_occupancy_data data = Some (LBRACE :: DQUOTE :: str "a" ++ [DQUOTE; RBRACE])
  /\ scrape_occupancy_data data <> Some span.
Proof.
  repeat split.
  - do 3 (apply balanced_char; [reflexivity|]). apply balanced_nil.
  - discriminate.
Qed.

(** C5: only the first balanced top-level span is returned: what the
    extractor returns is made from that span alone, and whatever follows
    it, balanced braces included, changes nothing; and the example of
    the specification. *)
Theorem scrape_occupancy_data_first_span_only :
  (forall pre body post,
      brace_free pre -> balanced body ->
      scrape_occupancy_data (pre ++ LBRACE :: body ++ RBRACE :: post)
      = Some (format_scraped_json (LBRACE :: body ++ [RBRACE]))
      /\ scrape_occupancy_data (pre ++ LBRACE :: body ++ RBRACE :: post)
         = scrape_occupancy_data (pre ++ LBRACE :: body ++ [RBRACE]))
  /\ scrape_occupancy_data (str "{a{b}c}trailing{d}") = Some (str "{a{b}c}").
Proof.
  split; [|reflexivity].
  intros pre body post Hp Hb. now rewrite !scrape_span.
Qed.

Lemma scrape_occupancy_data_first_span_only_witness :
  scrape_occupancy_data (str "{a{b}c}trailing{d}")
  = Some (format_scraped_json (str "{a{b}c}"))
  /\ scrape_occupancy_data (str "{a{b}c}trailing{d}")
     = scrape_occupancy_data (str "{a{b}c}").
Proof.
  apply (proj1 scrape_occupancy_data_first_span_only
           [] (str "a{b}c") (str "trailing{d}")).
  - reflexivity.
  - apply balanced_char; [reflexivity|].
    apply (balanced_nest (str "b") (str "c"));
      (apply balanced_char; [reflexivity | apply balanced_nil]).
Defined.

(* ================================================================== *)
(** * Properties of the normaliser *)
(* ================================================================== *)

Lemma startswith_prefix (p s : pystr) :
  startswith p s = true <-> exists r, s = p ++ r.
Proof.
  revert s. induction p as [|x p IH]; intros s; simpl.
  - split; [intros _; now exists s | reflexivity].
  - destruct s as [|y s].
    + split; [discriminate | intros [r Hr]; discriminate].
    + rewrite andb_true_iff, char_eqb_eq, IH. split.
      * intros [-> [r ->]]. now exists r.
      * intros [r [= -> ->]]. split; [reflexivity | now exists r].
Qed.

Lemma contains_occurs (p s : pystr) : contains p s = true <-> occurs p s.
Proof.
  induction s as [|c s IH].
  - simpl. rewrite orb_false_r, startswith_prefix. split.
    + intros [r Hr]. now exists [], r.
    + intros ([|x a] & b & Hab); [now exists b | discriminate].
  - simpl. rewrite orb_true_iff, IH, startswith_prefix. split.
    + intros [[r Hr]|(a & b & ->)].
      * now exists [], r.
      * now exists (c :: a), b.
    + intros ([|x a] & b & Hab).
      * left. now exists b.
      * right. injection Hab as -> ->. now exists a, b.
Qed.

Lemma occurs_cons (p s : pystr) (c : char) : occurs p s -> occurs p (c :: s).
Proof. intros (a & b & ->). now exists (c :: a), b. Qed.

Lemma occurs_prefix (p r : pystr) : occurs p (p ++ r).
Proof. now exists [], r. Qed.

(** When [a] is not in [l], a run that starts with [a] in [l ++ x]
    starts in [x]. *)
Lemma app_split_notin (a : char) (l x pre y : pystr) :
  ~ In a l -> l ++ x = pre ++ a :: y ->
  exists pre', pre = l ++ pre' /\ x = pre' ++ a :: y.
Proof.
  revert pre. induction l as [|n l IH]; intros pre Hin E.
  - now exists pre.
  - destruct pre as [|n' pre]; simpl in E; injection E as -> E.
    + exfalso. apply Hin. now left.
    + apply IH in E as (pre' & -> & ->).
      * now exists pre'.
      * intros Hl. apply Hin. now right.
Qed.

Section Replace.

Variables (o : char) (old' new : pystr).
Let old := o :: old'.

Lemma replace_from_skipn (s : pystr) :
  forall k, replace_from old new k s = replace_from old new 0 (skipn k s).
Proof.
  induction s as [|c s IH]; intros [|k]; try reflexivity.
  simpl skipn. rewrite <- IH. reflexivity.
Qed.

(** [replace] where an occurrence starts, and where none does. *)
Lemma replace_match (s : pystr) :
  startswith old s = true ->
  replace old new s = new ++ replace old new (skipn (length old) s).
Proof.
  intros Hm. destruct s as [|c s]; [discriminate|].
  unfold replace, old in *. cbn [replace_from]. rewrite Hm.
  rewrite replace_from_skipn. simpl length. simpl skipn.
  now rewrite ?Nat.sub_0_r.
Qed.

Lemma replace_nomatch (c : char) (s : pystr) :
  startswith old (c :: s) = false ->
  replace old new (c :: s) = c :: replace old new s.
Proof.
  intros Hm. unfold replace, old in *. cbn [replace_from]. now rewrite Hm.
Qed.

Lemma replace_cons_inv (s t : pystr) (c : char) :
  replace old new s = c :: t ->
  (startswith old s = true
   /\ new ++ replace old new (skipn (length old) s) = c :: t)
  \/ (exists s', s = c :: s' /\ startswith old s = false
                 /\ replace old new s' = t).
Proof.
  intros E. destruct (startswith old s) eqn:Hm.
  - left. split; [reflexivity|]. now rewrite <- replace_match.
  - right. destruct s as [|c' s]; [discriminate|].
    rewrite replace_nomatch in E by exact Hm. injection E as -> E.
    now exists s.
Qed.

(** A run that starts with a character the replacement text lacks
    occurs in the result only where a run of the result of some suffix
    of the argument starts with it. *)
Lemma occurs_replace (P : pystr -> Prop) (a : char) (p : pystr) :
  ~ In a new ->
  (forall c s, P s -> P (c :: s)) ->
  (forall s t, replace old new s = (a :: p) ++ t -> P s) ->
  forall s, occurs (a :: p) (replace old new s) -> P s.
Proof.
  intros Hin Hcons Hhead.
  assert (Hskip : forall k s, P (skipn k s) -> P s).
  { induction k as [|k IH]; intros [|c s]; simpl; trivial.
    intros Hs. apply Hcons. now apply IH. }
  assert (Hn : forall n s pre t,
             length s <= n ->
             replace old new s = pre ++ (a :: p) ++ t -> P s).
  { induction n as [|n IH]; intros s pre t Hlen E.
    - destruct s; [|simpl in Hlen; lia].
      destruct pre; discriminate.
    - destruct s as [|c s]; [destruct pre; discriminate|].
      destruct (startswith old (c :: s)) eqn:Hm.
      + rewrite replace_match in E by exact Hm.
        apply app_split_notin in E as (pre' & -> & E); [|exact Hin].
        apply Hskip with (k := length old). apply (IH _ pre' t); [|exact E].
        simpl in *. rewrite length_skipn. lia.
      + rewrite replace_nomatch in E by exact Hm.
        destruct pre as [|c' pre].
        * apply (Hhead _ t). rewrite replace_nomatch by exact Hm. exact E.
        * injection E as -> E. apply Hcons. apply (IH _ pre t); [|exact E].
          simpl in Hlen. lia. }
  intros s (pre & t & E). now apply (Hn (length s) s pre t).
Qed.

End Replace.

(** One character of the result of [replace] is read: either an
    occurrence starts there, or the argument has that character. *)
Ltac replace_step H Hm :=
  apply replace_cons_inv in H as [[Hm H]|(? & -> & Hm & H)].

(** Where the first replacement leaves a comma, a line feed and a
    closing brace, two commas stood before the line feed. *)
Lemma first_replace_head (s t : pystr) :
  replace [COMMA; LF; RBRACE] [LF; RBRACE] s = [COMMA; LF; RBRACE] ++ t ->
  exists r, s = [COMMA; COMMA; LF; RBRACE] ++ r.
Proof.
  intros H. simpl in H.
  replace_step H H0; [discriminate H|].
  replace_step H H1.
  - apply startswith_prefix in H1 as [r ->]. now exists r.
  - replace_step H H2; [discriminate H|].
    cbv in H0. discriminate H0.
Qed.

(** The first replacement makes no comma, line feed, comma, four blanks
    and closing brace that was not there. *)
Lemma first_replace_head_blanks (s t : pystr) :
  replace [COMMA; LF; RBRACE] [LF; RBRACE] s
  = [COMMA; LF; COMMA; SPACE; SPACE; SPACE; SPACE; RBRACE] ++ t ->
  exists r, s = [COMMA; LF; COMMA; SPACE; SPACE; SPACE; SPACE; RBRACE] ++ r.
Proof.
  intros H. simpl in H.
  replace_step H H0; [discriminate H|].
  replace_step H H1; [discriminate H|].
  do 6 (replace_step H H2; [discriminate H|]; clear H2).
  eexists. reflexivity.
Qed.

(** Where the second replacement leaves a comma, a line feed and a
    closing brace, they were there, or the brace is what it put for a
    comma, four blanks and a brace. *)
Lemma second_replace_head (s t : pystr) :
  replace (COMMA :: str "    }") [RBRACE] s = [COMMA; LF; RBRACE] ++ t ->
  (exists r, s = [COMMA; LF; RBRACE] ++ r)
  \/ (exists r, s = [COMMA; LF; COMMA; SPACE; SPACE; SPACE; SPACE; RBRACE] ++ r).
Proof.
  intros H. simpl in H.
  replace_step H H0; [discriminate H|].
  replace_step H H1; [discriminate H|].
  replace_step H H2.
  - right. apply startswith_prefix in H2 as [r ->]. now exists r.
  - left. eexists. reflexivity.
Qed.

Lemma comma_not_in_replacements :
  ~ In COMMA [LF; RBRACE] /\ ~ In COMMA [RBRACE].
Proof. split; simpl; intuition discriminate. Qed.

(** A comma, a line feed and a closing brace in the normalised text come
    from one of two runs of the trimmed text. *)
Lemma format_scraped_json_occurs (data : pystr) :
  occurs [COMMA; LF; RBRACE] (format_scraped_json data) ->
  occurs [COMMA; COMMA; LF; RBRACE] (trimmed_lines data)
  \/ occurs [COMMA; LF; COMMA; SPACE; SPACE; SPACE; SPACE; RBRACE]
       (trimmed_lines data).
Proof.
  unfold format_scraped_json. intros H.
  destruct comma_not_in_replacements as [Hin1 Hin2].
  apply (occurs_replace COMMA (str "    }") [RBRACE]
           (fun s => occurs [COMMA; LF; RBRACE] s
                     \/ occurs [COMMA; LF; COMMA; SPACE; SPACE; SPACE; SPACE; RBRACE] s)
           COMMA [LF; RBRACE])
    in H.
  - destruct H as [H|H].
    + left. revert H.
      apply (occurs_replace COMMA [LF; RBRACE] [LF; RBRACE]
               (occurs [COMMA; COMMA; LF; RBRACE]) COMMA [LF; RBRACE]).
      * exact Hin1.
      * intros c s. apply occurs_cons.
      * intros s t E. apply first_replace_head in E as [r ->].
        apply occurs_prefix.
    + right. revert H.
      apply (occurs_replace COMMA [LF; RBRACE] [LF; RBRACE]
               (occurs [COMMA; LF; COMMA; SPACE; SPACE; SPACE; SPACE; RBRACE])
               COMMA [LF; COMMA; SPACE; SPACE; SPACE; SPACE; RBRACE]).
      * exact Hin1.
      * intros c s. apply occurs_cons.
      * intros s t E. apply first_replace_head_blanks in E as [r ->].
        apply occurs_prefix.
  - exact Hin2.
  - intros c s [Hs|Hs]; [left|right]; now apply occurs_cons.
  - intros s t E. apply second_replace_head in E as [[r ->]|[r ->]];
      [left|right]; apply occurs_prefix.
Qed.

(** C3, as the code has it: the normaliser trims each line, substitutes
    the quotes, and then removes the comma of each run of comma, line
    feed, closing brace and of each run of comma, four blanks, closing
    brace.  No comma followed by a line feed and a closing brace is left
    when the trimmed text has neither two commas before a line feed and
    a closing brace, nor a comma and a line feed before a comma, four
    blanks and a closing brace. *)
Theorem format_scraped_json_trailing_commas (data : pystr) :
  contains [COMMA; COMMA; LF; RBRACE] (trimmed_lines data) = false ->
  contains (COMMA :: LF :: COMMA :: str "    }") (trimmed_lines data) = false ->
  contains [COMMA; LF; RBRACE] (format_scraped_json data) = false.
Proof.
  intros H1 H2.
  destruct (contains [COMMA; LF; RBRACE] (format_scraped_json data)) eqn:E;
    [|reflexivity].
  apply contains_occurs, format_scraped_json_occurs in E as [E|E];
    apply contains_occurs in E.
  - rewrite H1 in E. discriminate E.
  - change (contains (COMMA :: LF :: COMMA :: str "    }") (trimmed_lines data)
            = true) in E.
    rewrite H2 in E. discriminate E.
Qed.

Lemma format_scraped_json_trailing_commas_witness :
  contains [COMMA; LF; RBRACE]
    (format_scraped_json
       (str "{" ++ LF :: str "  'ARC': {" ++ LF :: str "    'count': 5," ++ LF
            :: str "    'capacity': 10," ++ LF :: str "  }" ++ LF :: str "}"))
  = false.
Proof.
  apply format_scraped_json_trailing_commas; reflexivity.
Defined.

(** C3 as the claim states it fails: a comma directly before a closing
    brace on the same line stays, and of two commas before a line feed
    and a closing brace the first stays. *)
Lemma format_scraped_json_keeps_commas :
  format_scraped_json (str "{'a': 1,}") = LBRACE :: DQUOTE :: str "a" ++ DQUOTE :: str ": 1,}"
  /\ contains [COMMA; RBRACE] (format_scraped_json (str "{'a': 1,}")) = true
  /\ format_scraped_json (str "{1,," ++ LF :: str "}") = str "{1," ++ LF :: str "}"
  /\ contains [COMMA; LF; RBRACE]
       (format_scraped_json (str "{1,," ++ LF :: str "}")) = true.
Proof. repeat split. Qed.

(* ================================================================== *)
(** * Properties of the row mapper and of the pipeline *)
(* ================================================================== *)

Section PipelineProperties.
Context {R : Repr}.

Lemma display_length {A} (elements : list (lookup A)) :
  forall values xs values',
    display elements values = Ok (xs, values') ->
    length xs = length elements.
Proof.
  induction elements as [|e rest IH]; intros values xs values' E; simpl in E.
  - now injection E as <- _.
  - destruct (e values) as [[x v]|]; [|discriminate]. simpl in E.
    destruct (display rest v) as [[ys w]|] eqn:D; [|discriminate].
    simpl in E. injection E as <- _. simpl. f_equal. eapply IH; eauto.
Qed.

Lemma isoformat_not_empty (sep : pystr) (now : datetime) : isoformat sep now <> [].
Proof.
  unfold isoformat. intros E. apply (f_equal (@length char)) in E.
  rewrite length_app in E. simpl in E. lia.
Qed.

(** C6: a row the mapper returns has 21 entries, whatever the record
    holds; the empty object gives the reading of the clock, which is not
    empty, and twenty empty strings. *)
Theorem json_to_row_length :
  (forall now data row,
      json_to_row now data = Ok row -> length row = 21)
  /\ (forall now,
         json_to_row now (Some (str "{}"))
         = Ok (isoformat [SPACE] now :: repeat [] 20)
         /\ isoformat [SPACE] now <> []).
Proof.
  split.
  - intros now data row. unfold json_to_row.
    destruct (json_loads data) as [parsed|]; [|discriminate]. cbn [bind].
    destruct (dict_update [] parsed) as [values|]; [|discriminate]. cbn [bind].
    match goal with
    | |- context [display ?es ?v] =>
        destruct (display es v) as [[xs w]|] eqn:D; [|discriminate]
    end.
    cbn [bind]. intros [= <-]. now apply display_length in D.
  - intros now. split; [reflexivity | apply isoformat_not_empty].
Qed.

(** C1 does not hold of the code: when a facility code is present and
    its mapping lacks a field, the lookup raises [KeyError]; only a
    facility code that is absent gives empty strings, as the second
    input, the example of the specification, shows. *)
Theorem json_to_row_missing_field (now : datetime) :
  json_to_row now (Some (dq "{'ARC': {'capacity': 8}}"))
  = Raise (KeyError (str "count"))
  /\ json_to_row now (Some (dq "{'ARC': {'count': 3, 'capacity': 8}}"))
     = Ok (isoformat [SPACE] now :: str "3" :: str "8" :: repeat [] 18).
Proof. split; reflexivity. Qed.

(** C8: the text of the specification, normalised and parsed. *)
Theorem format_scraped_json_round_trip :
  json_loads
    (Some (format_scraped_json
             (str "{" ++ LF :: str "  'ARC': {" ++ LF
                  :: str "    'count': 5," ++ LF
                  :: str "    'capacity': 10," ++ LF
                  :: str "  }" ++ LF :: str "}")))
  = Ok (JObject [(str "ARC",
                  JObject [(str "count", JInt 5); (str "capacity", JInt 10)])]).
Proof. reflexivity. Qed.

(** The timestamp is the first element of the display and leaves
    [values] as it is. *)
Lemma display_ret {A} (x : A) (rest : list (lookup A)) (values : store) :
  display (ret x :: rest) values
  = (' (xs, values) <- display rest values ;; Ok (x :: xs, values))%result.
Proof. reflexivity. Qed.

Lemma json_to_row_cells (now1 now2 : datetime) (data : option pystr) :
  (exists cells,
      json_to_row now1 data = Ok (isoformat [SPACE] now1 :: cells)
      /\ json_to_row now2 data = Ok (isoformat [SPACE] now2 :: cells))
  \/ (exists e, json_to_row now1 data = Raise e /\ json_to_row now2 data = Raise e).
Proof.
  unfold json_to_row.
  destruct (json_loads data) as [parsed|e]; [|right; now exists e]. cbn [bind].
  destruct (dict_update [] parsed) as [values|e]; [|right; now exists e].
  cbn [bind]. rewrite !display_ret.
  match goal with
  | |- context [display ?es values] =>
      destruct (display es values) as [[cells w]|e]
  end.
  - left. now exists cells.
  - right. now exists e.
Qed.

(** C9: two runs of the pipeline on the same text, at whatever times,
    raise the same exception or return rows that are equal from index 1
    on. *)
Theorem scrape_script_deterministic (now1 now2 : datetime) (script : pystr) :
  (exists ts1 ts2 cells,
      scrape_script now1 script = Ok (ts1 :: cells)
      /\ scrape_script now2 script = Ok (ts2 :: cells))
  \/ (exists e,
         scrape_script now1 script = Raise e
         /\ scrape_script now2 script = Raise e).
Proof.
  unfold scrape_script.
  destruct (json_to_row_cells now1 now2 (scrape_occupancy_data script))
    as [(cells & H1 & H2)|(e & H1 & H2)].
  - left. now exists (isoformat [SPACE] now1), (isoformat [SPACE] now2), cells.
  - right. now exists e.
Qed.

(** C10: when the extractor finds no span, the pipeline hands [None] to
    [json.loads] and raises [TypeError], which is no [JSONDecodeError]. *)
Theorem scrape_script_span_not_found (now : datetime) (script : pystr) :
  scrape_occupancy_data script = None ->
  scrape_script now script = Raise TypeError
  /\ forall msg, TypeError <> JSONDecodeError msg.
Proof.
  intros Hn. unfold scrape_script. rewrite Hn. split; [reflexivity | discriminate].
Qed.

End PipelineProperties.

(* ================================================================== *)
(** * The decoder has fuel enough *)
(* ================================================================== *)
















(* ================================================================== *)
(** * Strict JSON and json.loads *)
(* ================================================================== *)





Section ParseFailure.
Context {R : Repr}.


End ParseFailure.



(** The format of the timestamp, with and without microseconds. *)
Example isoformat_examples :
  isoformat [SPACE] a_clock = str "2020-07-04 09:30:05.001200"
  /\ isoformat [SPACE]
       {| year := 987; month := 12; day := 31;
          hour := 23; minute := 0; second := 59; microsecond := 0 |}
     = str "0987-12-31 23:00:59".
Proof. split; vm_compute; reflexivity. Qed.

Lemma json_to_row_length_witness :
  length (isoformat [SPACE] a_clock :: str "3" :: str "8" :: repeat [] 18) = 21.
Proof.
  apply (proj1 (@json_to_row_length a_repr) a_clock
           (Some (dq "{'ARC': {'count': 3, 'capacity': 8}}"))).
  vm_compute. reflexivity.
Defined.

Lemma scrape_script_span_not_found_witness :
  @scrape_script a_repr a_clock (str "var data = {'ARC': {'count': 1};")
  = Raise TypeError.
Proof.
  apply (@scrape_script_span_not_found a_repr a_clock).
  vm_compute. reflexivity.
Defined.

(* ================================================================== *)
(** * Further properties of the extractor *)
(* ================================================================== *)

Lemma brace_free_app (a b : pystr) :
  brace_free (a ++ b) <-> brace_free a /\ brace_free b.
Proof.
  unfold brace_free. rewrite forallb_app. apply andb_true_iff.
Qed.

(** What the extractor returns is the normalised form of a balanced
    span that starts at the first brace of the input. *)
Lemma scrape_some_span (data x : pystr) :
  scrape_occupancy_data data = Some x ->
  exists pre body post,
    data = pre ++ LBRACE :: body ++ RBRACE :: post
    /\ brace_free pre /\ balanced body
    /\ x = format_scraped_json (LBRACE :: body ++ [RBRACE]).
Proof.
  intros Hx. destruct (scrape_some_has_span _ _ Hx)
    as (pre & body & post & -> & Hp & Hb).
  exists pre, body, post. repeat split; trivial.
  rewrite scrape_span in Hx by assumption. now injection Hx.
Qed.

(** X1: Text without braces before the input changes nothing: the extractor
    returns for [pre ++ data] what it returns for [data]. *)
Theorem scrape_occupancy_data_prefix (pre data : pystr) :
  brace_free pre ->
  scrape_occupancy_data (pre ++ data) = scrape_occupancy_data data.
Proof.
  intros Hp. destruct (scrape_occupancy_data data) as [x|] eqn:E.
  - apply scrape_some_span in E as (pre' & body & post & -> & Hp' & Hb & ->).
    rewrite app_assoc. apply scrape_span; trivial.
    apply brace_free_app. now split.
  - destruct (scrape_occupancy_data (pre ++ data)) as [y|] eqn:E'; [|reflexivity].
    apply scrape_some_has_span in E' as (pre2 & body & post & E2 & Hp2 & Hb).
    apply app_split_notin in E2 as (pre' & -> & ->);
      [|now apply brace_free_no_open].
    apply brace_free_app in Hp2 as [_ Hp'].
    assert (Hs : has_span (pre' ++ LBRACE :: body ++ RBRACE :: post))
      by now exists pre', body, post.
    apply has_span_scrape in Hs as [x Hx]. congruence.
Qed.

Lemma scrape_occupancy_data_prefix_witness :
  scrape_occupancy_data (str "var data = " ++ str "{'a': 1};")
  = scrape_occupancy_data (str "{'a': 1};").
Proof.
  apply scrape_occupancy_data_prefix. vm_compute. reflexivity.
Defined.

(* ================================================================== *)
(** * Further properties of the normaliser *)
(* ================================================================== *)

Lemma in_skipn {A} (x : A) (k : nat) (l : list A) : In x (skipn k l) -> In x l.
Proof.
  revert l. induction k as [|k IH]; intros [|y l]; simpl; trivial.
  intros H. right. now apply IH.
Qed.

(** The characters of [replace old new s] are characters of [new] or
    of [s]. *)
Lemma replace_in (o : char) (old' new : pystr) (c : char) :
  forall s, In c (replace (o :: old') new s) -> In c new \/ In c s.
Proof.
  assert (Hn : forall n s, length s <= n ->
             In c (replace (o :: old') new s) -> In c new \/ In c s).
  { induction n as [|n IH]; intros s Hlen.
    - destruct s; [simpl; tauto | simpl in Hlen; lia].
    - destruct s as [|x s]; [simpl; tauto|].
      destruct (startswith (o :: old') (x :: s)) eqn:Hm.
      + rewrite replace_match by exact Hm. intros H.
        apply in_app_or in H as [H|H]; [now left|].
        apply IH in H as [H|H]; [now left | right; eapply in_skipn; eauto|].
        rewrite length_skipn. simpl in *. lia.
      + rewrite replace_nomatch by exact Hm. intros [->|H].
        * right. now left.
        * apply IH in H as [H|H]; [now left | right; now right|].
          simpl in Hlen. lia. }
  intros s. now apply (Hn (length s)).
Qed.

(** Where [old] does not occur, [replace] changes nothing. *)
Lemma replace_absent (o : char) (old' new s : pystr) :
  contains (o :: old') s = false -> replace (o :: old') new s = s.
Proof.
  induction s as [|x s IH]; [reflexivity|].
  cbn [contains]. intros H. apply orb_false_elim in H as [Hm Hc].
  rewrite replace_nomatch by exact Hm. now rewrite IH.
Qed.

Lemma occurs_in (p s : pystr) (c : char) : occurs p s -> In c p -> In c s.
Proof.
  intros (a & b & ->) H. apply in_or_app. right. apply in_or_app. now left.
Qed.

Lemma contains_absent (p s : pystr) (c : char) :
  In c p -> ~ In c s -> contains p s = false.
Proof.
  intros Hp Hs. destruct (contains p s) eqn:E; [|reflexivity].
  apply contains_occurs in E. exfalso. apply Hs. eapply occurs_in; eauto.
Qed.

(** After the substitution of the quotes no single quote is left. *)
Lemma replace_quotes_none (s : pystr) : ~ In SQUOTE (replace [SQUOTE] [DQUOTE] s).
Proof.
  induction s as [|x s IH]; [simpl; tauto|].
  destruct (startswith [SQUOTE] (x :: s)) eqn:Hm.
  - rewrite replace_match by exact Hm. simpl. intros [H|H]; [discriminate | tauto].
  - rewrite replace_nomatch by exact Hm. intros [->|H]; [|tauto].
    cbn in Hm. discriminate Hm.
Qed.

Lemma join_in (sep : pystr) (parts : list pystr) (c : char) :
  In c (join sep parts) -> In c sep \/ exists p, In p parts /\ In c p.
Proof.
  induction parts as [|p [|q rest] IH]; simpl; [tauto | |].
  - intros H. right. exists p. tauto.
  - intros H. apply in_app_or in H as [H|H]; [right; exists p; tauto|].
    apply in_app_or in H as [H|H]; [now left|].
    apply IH in H as [H|(p' & Hp' & Hc)]; [now left|].
    right. exists p'. tauto.
Qed.

Lemma lstrip_in (s : pystr) (c : char) : In c (lstrip s) -> In c s.
Proof.
  induction s as [|x s IH]; simpl; [tauto|].
  destruct (is_space x); simpl; tauto.
Qed.

Lemma strip_in (s : pystr) (c : char) : In c (strip s) -> In c s.
Proof.
  unfold strip, rstrip. intros H.
  apply in_rev, lstrip_in, in_rev in H. now apply lstrip_in.
Qed.

(** No line of [splitlines] holds a line boundary. *)
Lemma splitlines_from_no_break (n : nat) :
  forall s cur, length s <= n ->
    (forall c, In c cur -> is_linebreak c = false) ->
    forall x, In x (splitlines_from cur s) ->
      forall c, In c x -> is_linebreak c = false.
Proof.
  induction n as [|n IH]; intros s cur Hn Hcur x Hx c Hc.
  - destruct s; [|simpl in Hn; lia]. simpl in Hx.
    destruct cur; [contradiction|]. destruct Hx as [<-|[]]. now apply Hcur.
  - destruct s as [|y s].
    + simpl in Hx. destruct cur; [contradiction|].
      destruct Hx as [<-|[]]. now apply Hcur.
    + cbn [splitlines_from] in Hx. simpl in Hn.
      destruct (is_linebreak y) eqn:Hy.
      * destruct Hx as [<-|Hx]; [now apply Hcur|].
        destruct s as [|y' s']; [contradiction|].
        destruct (char_eqb y CR && char_eqb y' LF).
        -- apply (IH s' [] ltac:(simpl in Hn; lia) ltac:(simpl; tauto) x Hx c Hc).
        -- apply (IH (y' :: s') [] ltac:(lia) ltac:(simpl; tauto) x Hx c Hc).
      * apply (IH s (cur ++ [y]) ltac:(lia)) with (x := x); trivial.
        intros c' Hc'. apply in_app_or in Hc' as [Hc'|[<-|[]]];
          [now apply Hcur | exact Hy].
Qed.

(** The characters of the trimmed text: a line feed between two lines,
    a double quote, or a character of the data that is no line
    boundary. *)
Lemma trimmed_lines_in (data : pystr) (c : char) :
  In c (trimmed_lines data) ->
  c = LF \/ c = DQUOTE \/ (In c data /\ is_linebreak c = false /\ c <> SQUOTE).
Proof.
  unfold trimmed_lines. intros H.
  apply join_in in H as [[<-|[]]|(p & Hp & Hc)]; [now left|].
  apply in_map_iff in Hp as (x & <- & Hx).
  destruct (N.eq_dec c SQUOTE) as [->|Hq];
    [exfalso; eapply replace_quotes_none; eauto|].
  apply replace_in in Hc as [[<-|[]]|Hc]; [tauto|].
  apply strip_in in Hc. right; right. split; [|split; trivial].
  - clear Hq. unfold splitlines in Hx. revert x Hx c Hc.
    assert (G : forall n s cur, length s <= n ->
               forall x, In x (splitlines_from cur s) ->
                 forall c, In c x -> In c cur \/ In c s).
    { induction n as [|n IH]; intros s cur Hn x Hx c Hc.
      - destruct s; [|simpl in Hn; lia]. simpl in Hx.
        destruct cur; [contradiction|]. destruct Hx as [<-|[]]. now left.
      - destruct s as [|y s].
        + simpl in Hx. destruct cur; [contradiction|].
          destruct Hx as [<-|[]]. now left.
        + cbn [splitlines_from] in Hx. simpl in Hn.
          destruct (is_linebreak y).
          * destruct Hx as [<-|Hx]; [now left|].
            destruct s as [|y' s']; [contradiction|].
            destruct (char_eqb y CR && char_eqb y' LF).
            -- destruct (IH s' [] ltac:(simpl in Hn; lia) x Hx c Hc) as [[]|H].
               right. right. now right.
            -- destruct (IH (y' :: s') [] ltac:(lia) x Hx c Hc) as [[]|H].
               right. now right.
          * destruct (IH s (cur ++ [y]) ltac:(lia) x Hx c Hc) as [H|H].
            -- apply in_app_or in H as [H|[<-|[]]]; [now left | right; now left].
            -- right. now right. }
    intros x Hx c Hc. destruct (G (length data) data [] (le_n _) x Hx c Hc) as [[]|H].
    exact H.
  - eapply (splitlines_from_no_break (length data) data []); eauto.
    simpl; tauto.
Qed.

(** The characters of the normalised text: a line feed, a double quote,
    a closing brace, or a character of the data that is neither a line
    boundary nor a single quote. *)
Lemma format_scraped_json_in (data : pystr) (c : char) :
  In c (format_scraped_json data) ->
  c = LF \/ c = DQUOTE \/ c = RBRACE
  \/ (In c data /\ is_linebreak c = false /\ c <> SQUOTE).
Proof.
  unfold format_scraped_json. intros H.
  apply replace_in in H as [[<-|[]]|H]; [tauto|].
  apply replace_in in H as [[<-|[<-|[]]]|H]; [tauto | tauto |].
  apply trimmed_lines_in in H. tauto.
Qed.

(** X3: The normalised text holds no single quote. *)
Theorem format_scraped_json_no_single_quote (data : pystr) :
  ~ In SQUOTE (format_scraped_json data).
Proof.
  intros H. apply format_scraped_json_in in H
    as [H|[H|[H|(_ & _ & H)]]]; try discriminate H. now apply H.
Qed.

(** X4: The only line boundary of the normalised text is the line feed:
    carriage returns and the other boundaries [splitlines] knows are
    gone. *)
Theorem format_scraped_json_line_feeds (data : pystr) (c : char) :
  is_linebreak c = true -> c <> LF -> ~ In c (format_scraped_json data).
Proof.
  intros Hb Hc H. apply format_scraped_json_in in H
    as [H|[H|[H|(_ & H & _)]]]; subst; try discriminate Hb.
  - now apply Hc.
  - congruence.
Qed.

Lemma format_scraped_json_line_feeds_witness :
  ~ In CR (format_scraped_json (str "{'a': 1," ++ CR :: LF :: str "'b': 2}")).
Proof.
  apply format_scraped_json_line_feeds; [reflexivity | discriminate].
Defined.

Lemma splitlines_from_one_line (s : pystr) :
  forall cur,
    (forall c, In c s -> is_linebreak c = false) ->
    splitlines_from cur s
    = match cur ++ s with [] => [] | _ :: _ => [cur ++ s] end.
Proof.
  induction s as [|y s IH]; intros cur Hs.
  - simpl. rewrite app_nil_r. reflexivity.
  - cbn [splitlines_from]. rewrite (Hs y) by now left.
    rewrite IH by (intros c Hc; apply Hs; now right).
    now rewrite <- app_assoc.
Qed.

Lemma lstrip_app_last (s : pystr) (c : char) :
  is_space c = false -> lstrip (s ++ [c]) = lstrip s ++ [c].
Proof.
  intros Hc. induction s as [|x s IH]; simpl.
  - now rewrite Hc.
  - destruct (is_space x); [exact IH | reflexivity].
Qed.

(** [rstrip] keeps a first character that is no blank. *)
Lemma rstrip_cons (c : char) (s : pystr) :
  is_space c = false -> rstrip (c :: s) = c :: rstrip s.
Proof.
  intros Hc. unfold rstrip. simpl rev.
  rewrite lstrip_app_last by exact Hc. now rewrite rev_app_distr.
Qed.

Lemma rstrip_last (s : pystr) (c : char) :
  is_space c = false -> rstrip (s ++ [c]) = s ++ [c].
Proof.
  intros Hc. unfold rstrip. rewrite rev_app_distr. simpl. rewrite Hc.
  change (c :: rev s) with ([c] ++ rev s). now rewrite rev_app_distr, rev_involutive.
Qed.

(** The normaliser keeps an opening brace at the head of its argument
    at the head of its result. *)
Lemma format_scraped_json_head (rest : pystr) :
  exists t, format_scraped_json (LBRACE :: rest) = LBRACE :: t.
Proof.
  assert (Hl : exists l ls, splitlines (LBRACE :: rest) = (LBRACE :: l) :: ls).
  { unfold splitlines. change (splitlines_from [] (LBRACE :: rest))
      with (splitlines_from [LBRACE] rest).
    generalize (@nil char). generalize LBRACE. revert rest.
    assert (G : forall s (c : char) cur,
               exists l ls, splitlines_from (c :: cur) s = (c :: l) :: ls).
    { induction s as [|y s IH]; intros c cur.
      - exists cur, []. reflexivity.
      - cbn [splitlines_from]. destruct (is_linebreak y).
        + eexists cur, _. reflexivity.
        + apply (IH c (cur ++ [y])). }
    intros rest c cur. apply G. }
  destruct Hl as (l & ls & Hl).
  unfold format_scraped_json, trimmed_lines. rewrite Hl. cbn [List.map].
  unfold strip. cbn [lstrip]. change (is_space LBRACE) with false. cbv iota.
  rewrite rstrip_cons by reflexivity.
  rewrite replace_nomatch by reflexivity.
  generalize (replace [SQUOTE] [DQUOTE] (rstrip l)). intros x.
  match goal with |- context [List.map ?f ls] => generalize (List.map f ls) end.
  intros xs.
  destruct xs as [|x' xs]; cbn [join app];
    rewrite replace_nomatch by reflexivity;
    rewrite replace_nomatch by reflexivity; eauto.
Qed.

(** A span on one line without single quote stays as it is when its
    lines are trimmed and its quotes substituted. *)
Lemma trimmed_lines_span (body : pystr) :
  (forall c, In c body -> is_linebreak c = false) ->
  ~ In SQUOTE body ->
  trimmed_lines (LBRACE :: body ++ [RBRACE]) = LBRACE :: body ++ [RBRACE].
Proof.
  intros Hl Hq.
  assert (Hls : forall c, In c (body ++ [RBRACE]) -> is_linebreak c = false).
  { intros c H. apply in_app_or in H as [H|[<-|[]]];
      [now apply Hl | reflexivity]. }
  unfold trimmed_lines, splitlines.
  change (splitlines_from [] (LBRACE :: body ++ [RBRACE]))
    with (splitlines_from [LBRACE] (body ++ [RBRACE])).
  rewrite splitlines_from_one_line by exact Hls.
  cbn [app List.map join]. unfold strip. cbn [lstrip].
  change (is_space LBRACE) with false. cbv iota.
  rewrite app_comm_cons, rstrip_last by reflexivity.
  apply replace_absent. apply contains_absent with (c := SQUOTE); [now left|].
  intros [H|H]; [discriminate H|].
  apply in_app_or in H as [H|[H|[]]]; [now apply Hq | discriminate H].
Qed.

(** X2: A span without line boundary, single quote and comma before four
    blanks and a closing brace is returned as it stands in the input. *)
Theorem scrape_occupancy_data_verbatim (pre body post : pystr) :
  brace_free pre -> balanced body ->
  (forall c, In c body -> is_linebreak c = false) ->
  ~ In SQUOTE body ->
  contains (COMMA :: str "    }") (body ++ [RBRACE]) = false ->
  scrape_occupancy_data (pre ++ LBRACE :: body ++ RBRACE :: post)
  = Some (LBRACE :: body ++ [RBRACE]).
Proof.
  intros Hp Hb Hl Hq Hc. rewrite scrape_span by assumption. f_equal.
  unfold format_scraped_json. rewrite trimmed_lines_span by assumption.
  rewrite (replace_absent COMMA [LF; RBRACE] [LF; RBRACE]).
  - apply replace_absent. cbn [contains].
    change (startswith (COMMA :: str "    }") (LBRACE :: body ++ [RBRACE]))
      with false. exact Hc.
  - apply contains_absent with (c := LF); [right; now left|].
    intros [H|H]; [discriminate H|].
    apply in_app_or in H as [H|[H|[]]]; [|discriminate H].
    apply Hl in H. discriminate H.
Qed.

Lemma scrape_occupancy_data_verbatim_witness :
  scrape_occupancy_data (str "var data = " ++ LBRACE :: str "a{b}c" ++ RBRACE :: str ";{d}")
  = Some (LBRACE :: str "a{b}c" ++ [RBRACE]).
Proof.
  apply scrape_occupancy_data_verbatim.
  - reflexivity.
  - apply balanced_char; [reflexivity|].
    apply (balanced_nest (str "b") (str "c"));
      (apply balanced_char; [reflexivity | apply balanced_nil]).
  - vm_compute. intuition (subst; reflexivity).
  - vm_compute. intuition discriminate.
  - reflexivity.
Defined.

(* ================================================================== *)
(** * Dictionaries *)
(* ================================================================== *)

Lemma pystr_eqb_eq (a b : pystr) : pystr_eqb a b = true <-> a = b.
Proof.
  revert b. induction a as [|x a IH]; intros [|y b]; simpl;
    try (split; [discriminate | discriminate]); [tauto|].
  rewrite andb_true_iff, char_eqb_eq, IH. split.
  - now intros [-> ->].
  - now intros [= -> ->].
Qed.

Lemma pystr_eqb_refl (a : pystr) : pystr_eqb a a = true.
Proof. now apply pystr_eqb_eq. Qed.

Lemma pystr_eqb_neq (a b : pystr) : a <> b -> pystr_eqb a b = false.
Proof.
  intros H. destruct (pystr_eqb a b) eqn:E; [|reflexivity].
  apply pystr_eqb_eq in E. contradiction.
Qed.

Lemma pystr_eq_dec (a b : pystr) : {a = b} + {a <> b}.
Proof. apply list_eq_dec, N.eq_dec. Qed.

Lemma dict_get_set_same {A} (d : list (pystr * A)) (k : pystr) (v : A) :
  dict_get (dict_set d k v) k = Some v.
Proof.
  induction d as [|[k' v'] d IH]; simpl.
  - now rewrite pystr_eqb_refl.
  - destruct (pystr_eqb k k') eqn:E; simpl; rewrite E; [reflexivity | exact IH].
Qed.

Lemma dict_get_set_other {A} (d : list (pystr * A)) (k k' : pystr) (v : A) :
  k' <> k -> dict_get (dict_set d k v) k' = dict_get d k'.
Proof.
  intros Hk. induction d as [|[k0 v0] d IH]; simpl.
  - now rewrite pystr_eqb_neq.
  - destruct (pystr_eqb k k0) eqn:E; simpl.
    + apply pystr_eqb_eq in E. subst k0. now rewrite pystr_eqb_neq.
    + destruct (pystr_eqb k' k0); [reflexivity | exact IH].
Qed.

Lemma dict_set_keys {A} (d : list (pystr * A)) (k : pystr) (v : A) (x : pystr) :
  In x (List.map fst (dict_set d k v)) -> x = k \/ In x (List.map fst d).
Proof.
  induction d as [|[k0 v0] d IH]; simpl.
  - intros [<-|[]]. now left.
  - destruct (pystr_eqb k k0); simpl; [tauto|].
    intros [<-|H]; [tauto|]. apply IH in H. tauto.
Qed.

Lemma dict_set_nodup {A} (d : list (pystr * A)) (k : pystr) (v : A) :
  NoDup (List.map fst d) -> NoDup (List.map fst (dict_set d k v)).
Proof.
  induction d as [|[k0 v0] d IH]; simpl; intros Hd.
  - constructor; [simpl; tauto | constructor].
  - destruct (pystr_eqb k k0) eqn:E; simpl; [exact Hd|].
    inversion Hd as [|? ? Hn Hd']; subst. constructor; [|now apply IH].
    intros H. apply dict_set_keys in H as [->|H]; [|contradiction].
    now rewrite pystr_eqb_refl in E.
Qed.

(** [dict(pairs)] has each key once. *)
Lemma dict_of_pairs_nodup {A} (pairs : list (pystr * A)) :
  NoDup (List.map fst (dict_of_pairs pairs)).
Proof.
  unfold dict_of_pairs.
  assert (G : forall d : list (pystr * A),
             NoDup (List.map fst d) ->
             NoDup (List.map fst
                      (fold_left (fun d kv => dict_set d (fst kv) (snd kv))
                         pairs d))).
  { induction pairs as [|kv pairs IH]; intros d Hd; simpl; [exact Hd|].
    apply IH. now apply dict_set_nodup. }
  apply G. constructor.
Qed.

Lemma dict_get_none {A} (d : list (pystr * A)) (k : pystr) :
  ~ In k (List.map fst d) -> dict_get d k = None.
Proof.
  induction d as [|[k0 v0] d IH]; simpl; intros H; [reflexivity|].
  rewrite pystr_eqb_neq by (intros ->; tauto). apply IH. tauto.
Qed.

(** [update] from a dict: afterwards [values] holds under each key what
    the dict holds, and what it held before under the others. *)
Lemma dict_get_update (record : list (pystr * json)) :
  NoDup (List.map fst record) ->
  forall (values : store) (k : pystr),
    dict_get
      (fold_left (fun d kv => dict_set d (fst kv) (Parsed (snd kv))) record values)
      k
    = match dict_get record k with
      | Some v => Some (Parsed v)
      | None => dict_get values k
      end.
Proof.
  induction record as [|[k0 v0] record IH]; intros Hn values k; [reflexivity|].
  simpl in Hn. inversion Hn as [|? ? Hk0 Hn']; subst.
  cbn [fold_left fst snd dict_get]. rewrite IH by exact Hn'.
  destruct (pystr_eqb k k0) eqn:E.
  - apply pystr_eqb_eq in E. subst k0.
    rewrite (dict_get_none record k) by exact Hk0. apply dict_get_set_same.
  - destruct (dict_get record k); [reflexivity|].
    apply dict_get_set_other. intros ->. now rewrite pystr_eqb_refl in E.
Qed.

(* ================================================================== *)
(** * What the decoder returns *)
(* ================================================================== *)

Lemma scan_number_value (s r : pystr) (v : json) :
  scan_number s = Some (v, r) -> (exists z, v = JInt z) \/ (exists l, v = JFloat l).
Proof.
  unfold scan_number. destruct (match_integer s) as [[integer r1]|]; [|discriminate].
  destruct (match_frac r1) as [frac r2]. destruct (match_exp r2) as [exp r3].
  destruct (frac ++ exp); intros [= <- _]; eauto.
Qed.

(** An object the decoder returns is a dict whose keys are all
    different; what it reads behind an opening brace is a dict, behind
    an opening bracket a list. *)
Lemma decoder_values (a : bool) (fuel : nat) :
  (forall s v r, scan_once a fuel s = Ok (v, r) ->
     forall m, v = JObject m -> NoDup (List.map fst m))
  /\ (forall s v r, JSONObject a fuel s = Ok (v, r) ->
        exists m, v = JObject m /\ NoDup (List.map fst m))
  /\ (forall pairs s v r, object_members a fuel pairs s = Ok (v, r) ->
        exists m, v = JObject m /\ NoDup (List.map fst m))
  /\ (forall s v r, JSONArray a fuel s = Ok (v, r) -> exists l, v = JArray l)
  /\ (forall values s v r, array_items a fuel values s = Ok (v, r) ->
        exists l, v = JArray l).
Proof.
  induction fuel as [|fuel (IHv & IHo & IHm & IHa & IHi)].
  - repeat split; intros; discriminate.
  - repeat split.
    + intros s v r. cbn [scan_once]. destruct s as [|c s]; [discriminate|].
      destruct (c =? 34)%N.
      { destruct (scanstring [] s) as [[x r']|]; [|discriminate].
        intros [= <- _] m Hm. discriminate Hm. }
      destruct (c =? 123)%N.
      { intros H m ->. apply IHo in H as (m' & [= ->] & Hn). exact Hn. }
      destruct (c =? 91)%N.
      { intros H m ->. apply IHa in H as (l & Hl). discriminate Hl. }
      destruct (literal "null" (c :: s));
        [intros [= <- _] m Hm; discriminate Hm|].
      destruct (literal "true" (c :: s));
        [intros [= <- _] m Hm; discriminate Hm|].
      destruct (literal "false" (c :: s));
        [intros [= <- _] m Hm; discriminate Hm|].
      destruct (scan_number (c :: s)) as [[v' r']|] eqn:Nb.
      { intros [= <- _] m Hm. apply scan_number_value in Nb as [[z ->]|[l ->]];
          discriminate Hm. }
      destruct a; [|discriminate].
      destruct (literal "NaN" (c :: s));
        [intros [= <- _] m Hm; discriminate Hm|].
      destruct (literal "Infinity" (c :: s));
        [intros [= <- _] m Hm; discriminate Hm|].
      destruct (literal "-Infinity" (c :: s));
        [intros [= <- _] m Hm; discriminate Hm | discriminate].
    + intros s v r. cbn [JSONObject]. destruct (skip_ws s) as [|c r0]; [discriminate|].
      destruct (c =? 125)%N.
      { intros [= <- _]. exists []. split; [reflexivity | constructor]. }
      destruct (c =? 34)%N; [apply IHm | discriminate].
    + intros pairs s v r. cbn [object_members].
      destruct (scanstring [] s) as [[key r0]|]; [|discriminate]. cbn [bind].
      destruct (skip_ws r0) as [|c r1]; [discriminate|].
      destruct (c =? 58)%N; [|discriminate].
      destruct (scan_once a fuel (skip_ws r1)) as [[value r2]|]; [|discriminate].
      cbn [bind].
      destruct (skip_ws r2) as [|c2 r3]; [discriminate|].
      destruct (c2 =? 125)%N.
      { intros [= <- _]. eexists. split; [reflexivity | apply dict_of_pairs_nodup]. }
      destruct (c2 =? 44)%N; [|discriminate].
      destruct (skip_ws r3) as [|c3 r4]; [discriminate|].
      destruct (c3 =? 34)%N; [apply IHm | discriminate].
    + intros s v r. cbn [JSONArray]. destruct (skip_ws s) as [|c r0]; [apply IHi|].
      destruct (c =? 93)%N; [intros [= <- _]; eauto | apply IHi].
    + intros values s v r. cbn [array_items].
      destruct (scan_once a fuel s) as [[value r0]|]; [|discriminate]. cbn [bind].
      destruct (skip_ws r0) as [|c r1]; [discriminate|].
      destruct (c =? 93)%N; [intros [= <- _]; eauto|].
      destruct (c =? 44)%N; [apply IHi | discriminate].
Qed.

(** The keys of a dict [json.loads] returns are all different. *)
Lemma json_loads_keys (data : option pystr) (record : list (pystr * json)) :
  json_loads data = Ok (JObject record) -> NoDup (List.map fst record).
Proof.
  destruct data as [s|]; [|discriminate]. unfold json_loads, decode.
  destruct (startswith [65279%N] s); [discriminate|].
  destruct (scan_once true (3 * length s + 1) (skip_ws s)) as [[obj r]|] eqn:E;
    [|discriminate].
  cbn [bind]. destruct (skip_ws r); [|discriminate]. intros [= ->].
  eapply (proj1 (decoder_values _ _)); eauto.
Qed.

(** A text that starts with an opening brace is read as a dict or not
    at all. *)
Lemma json_loads_brace (t : pystr) (v : json) :
  json_loads (Some (LBRACE :: t)) = Ok v -> exists record, v = JObject record.
Proof.
  unfold json_loads, decode.
  change (startswith [65279%N] (LBRACE :: t)) with false. cbv iota.
  change (skip_ws (LBRACE :: t)) with (LBRACE :: t).
  rewrite Nat.add_1_r. cbn [scan_once].
  change (LBRACE =? 34)%N with false. change (LBRACE =? 123)%N with true.
  cbv iota.
  destruct (JSONObject true (3 * length (LBRACE :: t)) t) as [[obj r]|] eqn:E;
    [|discriminate].
  cbn [bind]. destruct (skip_ws r); [|discriminate]. intros [= ->].
  apply (proj1 (proj2 (decoder_values _ _))) in E as (m & -> & _). eauto.
Qed.

(* ================================================================== *)
(** * The row mapper on the parsed record *)
(* ================================================================== *)

Lemma collect_ext {A B} (f g : A -> result B) (l : list A) :
  (forall a, f a = g a) -> collect f l = collect g l.
Proof.
  intros H. induction l as [|a l IH]; simpl; [reflexivity|].
  now rewrite H, IH.
Qed.

Lemma collect_ok_iff {A B} (f : A -> result B) (l : list A) :
  (exists ys, collect f l = Ok ys) <-> (forall a, In a l -> exists y, f a = Ok y).
Proof.
  induction l as [|a l IH]; simpl.
  - split; [intros _ ? [] | eauto].
  - split.
    + intros [ys H] a' [<-|Ha].
      * destruct (f a); [eauto | discriminate].
      * apply IH; trivial. destruct (f a); [|discriminate]. simpl in H.
        destruct (collect f l); [eauto | discriminate].
    + intros H. destruct (H a (or_introl eq_refl)) as [y ->]. simpl.
      destruct (proj2 IH) as [ys ->]; [intros; apply H; now right|].
      simpl. eauto.
Qed.


Lemma collect_nth {A B} (f : A -> result B) (l : list A) :
  forall ys, collect f l = Ok ys ->
    forall j a, nth_error l j = Some a ->
      exists y, nth_error ys j = Some y /\ f a = Ok y.
Proof.
  induction l as [|a l IH]; intros ys H j a' Hj.
  - destruct j; discriminate.
  - simpl in H. destruct (f a) as [y|] eqn:Fa; [|discriminate]. simpl in H.
    destruct (collect f l) as [ys'|] eqn:C; [|discriminate].
    injection H as <-. destruct j as [|j]; simpl in *.
    + injection Hj as <-. eauto.
    + now apply IH.
Qed.

Section RowProperties.
Context {R : Repr}.

(** One subscript of the display returns what [store_value] says, and
    what it writes into [values] changes the value of no subscript. *)
Lemma cell_store_value (code field : string) (values : store) :
  match store_value values (str code) (str field) with
  | Ok x =>
      exists values',
        cell code field values = Ok (x, values')
        /\ forall c f, store_value values' c f = store_value values c f
  | Raise e => cell code field values = Raise e
  end.
Proof.
  unfold cell, subscript, store_value.
  destruct (dict_get values (str code)) as [[v|fields]|] eqn:G.
  - destruct v; try reflexivity.
    destruct (dict_get members (str field)); [|reflexivity].
    exists values. split; reflexivity.
  - unfold fresh_field. destruct (dict_get fields (str field)) eqn:F.
    + exists values. split; reflexivity.
    + eexists. split; [reflexivity|]. intros c f.
      destruct (pystr_eq_dec c (str code)) as [->|Hc].
      * rewrite dict_get_set_same, G.
        destruct (pystr_eq_dec f (str field)) as [->|Hf].
        -- now rewrite dict_get_set_same, F.
        -- now rewrite dict_get_set_other.
      * now rewrite dict_get_set_other.
  - unfold fresh_field. cbn [dict_get]. eexists. split; [reflexivity|].
    intros c f. destruct (pystr_eq_dec c (str code)) as [->|Hc].
    + rewrite dict_get_set_same, G. cbn [dict_set dict_get].
      now destruct (pystr_eqb f (str field)).
    + now rewrite !dict_get_set_other.
Qed.

(** The subscripts of a display, one after the other, return what
    [store_value] says of the [values] they started from. *)
Lemma display_store_values (sl : list (string * string)) :
  forall values,
    match collect (fun cf => store_value values (str (fst cf)) (str (snd cf))) sl with
    | Ok xs =>
        exists values',
          display (List.map (fun cf => cell (fst cf) (snd cf)) sl) values
          = Ok (xs, values')
    | Raise e =>
        display (List.map (fun cf => cell (fst cf) (snd cf)) sl) values = Raise e
    end.
Proof.
  induction sl as [|[code field] sl IH]; intros values.
  - simpl. eauto.
  - cbn [collect List.map display fst snd].
    pose proof (cell_store_value code field values) as Hc.
    destruct (store_value values (str code) (str field)) as [x|e];
      [|now rewrite Hc].
    destruct Hc as (values' & -> & Hv). cbn [bind].
    specialize (IH values').
    rewrite (collect_ext _
               (fun cf => store_value values (str (fst cf)) (str (snd cf)))) in IH
      by (intros a; apply Hv).
    destruct (collect _ sl) as [xs|e].
    + destruct IH as [values'' ->]. cbn [bind]. eauto.
    + now rewrite IH.
Qed.

Lemma store_value_update (record : list (pystr * json)) (code field : pystr) :
  NoDup (List.map fst record) ->
  store_value
    (fold_left (fun d kv => dict_set d (fst kv) (Parsed (snd kv))) record [])
    code field
  = field_value record code field.
Proof.
  intros Hn. unfold store_value, field_value. rewrite dict_get_update by exact Hn.
  destruct (dict_get record code) as [v|]; reflexivity.
Qed.

(** On a dict, the row mapper returns the timestamp and then, for each
    subscript in turn, the value of the field in the record as
    [json.loads] returned it, or raises what the first failing
    subscript raises: the entries the lookups add to [values] on the
    way are never seen. *)
Lemma json_to_row_collect
    (now : datetime) (data : option pystr) (record : list (pystr * json)) :
  json_loads data = Ok (JObject record) ->
  json_to_row now data
  = (cells <- collect (fun cf => field_value record (str (fst cf)) (str (snd cf)))
                slots ;;
     Ok (isoformat [SPACE] now :: cells))%result.
Proof.
  intros Hl. unfold json_to_row. rewrite Hl. cbn [bind dict_update].
  pose proof (json_loads_keys _ _ Hl) as Hn.
  set (values := fold_left _ record []).
  change (display _ values)
    with (display (ret (isoformat [SPACE] now)
                     :: List.map (fun cf => cell (fst cf) (snd cf)) slots) values).
  rewrite display_ret.
  pose proof (display_store_values slots values) as Hd.
  rewrite (collect_ext _
             (fun cf => field_value record (str (fst cf)) (str (snd cf)))) in Hd
    by (intros a; apply store_value_update; exact Hn).
  destruct (collect _ slots) as [xs|e].
  - destruct Hd as [values' ->]. reflexivity.
  - now rewrite Hd.
Qed.

(** X7: On a dict, the row mapper returns the timestamp and then, for each
    subscript in turn, the value of the field in the record as
    [json.loads] returned it, or raises what the first failing
    subscript raises: the entries the lookups add to [values] on the
    way are never seen. *)
Theorem json_to_row_record
    (now : datetime) (data : option pystr) (record : list (pystr * json)) :
  json_loads data = Ok (JObject record) ->
  json_to_row now data
  = (cells <- collect (fun cf => field_value record (str (fst cf)) (str (snd cf)))
                slots ;;
     Ok (isoformat [SPACE] now :: cells))%result.
Proof. intros. eapply json_to_row_collect; eassumption. Qed.

End RowProperties.

Section RowOutcomes.
Context {R : Repr}.

Lemma in_slots (cf : string * string) :
  In cf slots <->
  exists code, In code facility_codes
               /\ (cf = (code, "count"%string) \/ cf = (code, "capacity"%string)).
Proof.
  unfold slots. rewrite in_flat_map. split.
  - intros (code & Hc & [<-|[<-|[]]]); exists code; tauto.
  - intros (code & Hc & [E|E]); subst cf; exists code; simpl; tauto.
Qed.

(** The row mapper returns a row for a dict exactly when each facility
    code of the row is absent from it or maps to a dict that holds
    [count] and [capacity]. *)
Lemma json_to_row_ok_iff
    (now : datetime) (data : option pystr) (record : list (pystr * json)) :
  json_loads data = Ok (JObject record) ->
  ((exists row, json_to_row now data = Ok row) <-> complete record).
Proof.
  intros Hl. rewrite (json_to_row_collect now _ _ Hl).
  set (f := fun cf : string * string =>
              field_value record (str (fst cf)) (str (snd cf))).
  assert (Hrow : (exists row,
                    (cells <- collect f slots ;;
                     Ok (isoformat [SPACE] now :: cells))%result = Ok row)
                 <-> exists ys, collect f slots = Ok ys).
  { destruct (collect f slots) as [ys|e]; simpl.
    - split; eauto.
    - split; intros [? H]; discriminate H. }
  rewrite Hrow, collect_ok_iff. unfold complete. split.
  - intros H code Hc.
    destruct (H (code, "count"%string)) as [y1 H1];
      [apply in_slots; exists code; tauto|].
    destruct (H (code, "capacity"%string)) as [y2 H2];
      [apply in_slots; exists code; tauto|].
    unfold f, field_value in H1, H2. cbn [fst snd] in H1, H2.
    destruct (dict_get record (str code)) as [v|]; [|exact I].
    destruct v; try discriminate H1.
    split; intros E; [rewrite E in H1; discriminate H1
                     | rewrite E in H2; discriminate H2].
  - intros H cf Hcf. apply in_slots in Hcf as (code & Hc & Hcf).
    specialize (H code Hc). unfold f, field_value.
    destruct Hcf as [E|E]; subst cf; cbn [fst snd];
      (destruct (dict_get record (str code)) as [v|]; [|eauto]);
      (destruct v; try contradiction); destruct H as [H1 H2].
    + destruct (dict_get members (str "count")); [eauto | contradiction].
    + destruct (dict_get members (str "capacity")); [eauto | contradiction].
Qed.

(** X8: The row mapper returns a row for a dict exactly when each facility
    code of the row is absent from it or maps to a dict that holds
    [count] and [capacity]. *)
Theorem json_to_row_returns
    (now : datetime) (data : option pystr) (record : list (pystr * json)) :
  json_loads data = Ok (JObject record) ->
  ((exists row, json_to_row now data = Ok row) <-> complete record).
Proof. intros. eapply json_to_row_ok_iff; eassumption. Qed.

(** In a row returned for a dict, the two slots of the facility code
    at place [i] hold the strings of its [count] and its [capacity], or
    empty strings when the dict lacks the code. *)
Lemma json_to_row_nth
    (now : datetime) (data : option pystr) (record : list (pystr * json))
    (row : list pystr) (i : nat) (code : string) :
  json_loads data = Ok (JObject record) ->
  json_to_row now data = Ok row ->
  nth_error facility_codes i = Some code ->
  exists count capacity,
    nth_error row (1 + 2 * i) = Some count
    /\ nth_error row (2 + 2 * i) = Some capacity
    /\ field_value record (str code) (str "count") = Ok count
    /\ field_value record (str code) (str "capacity") = Ok capacity.
Proof.
  intros Hl Hrow Hi. rewrite (json_to_row_collect now _ _ Hl) in Hrow.
  set (f := fun cf : string * string =>
              field_value record (str (fst cf)) (str (snd cf))) in Hrow.
  destruct (collect f slots) as [cells|] eqn:C; [|discriminate Hrow].
  cbn [bind] in Hrow. injection Hrow as <-.
  pose proof (collect_nth f slots cells C) as Hn.
  assert (G : forall j, j = i ->
              nth_error slots (2 * j) = Some (code, "count"%string) ->
              nth_error slots (1 + 2 * j) = Some (code, "capacity"%string) ->
              exists count capacity,
                nth_error (isoformat [SPACE] now :: cells) (1 + 2 * i) = Some count
                /\ nth_error (isoformat [SPACE] now :: cells) (2 + 2 * i)
                   = Some capacity
                /\ field_value record (str code) (str "count") = Ok count
                /\ field_value record (str code) (str "capacity") = Ok capacity).
  { intros j <- H1 H2. apply Hn in H1 as (y1 & N1 & F1).
    apply Hn in H2 as (y2 & N2 & F2). exists y1, y2. repeat split; trivial. }
  do 10 (destruct i as [|i];
         [injection Hi as <-; eapply G; reflexivity|]).
  destruct i; discriminate Hi.
Qed.

(** X9: In a row returned for a dict, the two slots of the facility code
    at place [i] hold the strings of its [count] and its [capacity], or
    empty strings when the dict lacks the code. *)
Theorem json_to_row_slots
    (now : datetime) (data : option pystr) (record : list (pystr * json))
    (row : list pystr) (i : nat) (code : string) :
  json_loads data = Ok (JObject record) ->
  json_to_row now data = Ok row ->
  nth_error facility_codes i = Some code ->
  exists count capacity,
    nth_error row (1 + 2 * i) = Some count
    /\ nth_error row (2 + 2 * i) = Some capacity
    /\ field_value record (str code) (str "count") = Ok count
    /\ field_value record (str code) (str "capacity") = Ok capacity.
Proof. intros. eapply json_to_row_nth; eassumption. Qed.

(** X10: A facility code the dict lacks gives two empty strings. *)
Theorem json_to_row_absent
    (now : datetime) (data : option pystr) (record : list (pystr * json))
    (row : list pystr) (i : nat) (code : string) :
  json_loads data = Ok (JObject record) ->
  json_to_row now data = Ok row ->
  nth_error facility_codes i = Some code ->
  dict_get record (str code) = None ->
  nth_error row (1 + 2 * i) = Some [] /\ nth_error row (2 + 2 * i) = Some [].
Proof.
  intros Hl Hrow Hi Hg.
  destruct (json_to_row_nth now data record row i code Hl Hrow Hi)
    as (c & k & N1 & N2 & F1 & F2).
  unfold field_value in F1, F2. rewrite Hg in F1, F2.
  injection F1 as <-. injection F2 as <-. now split.
Qed.

End RowOutcomes.

(* ================================================================== *)
(** * Outcomes of the pipeline *)
(* ================================================================== *)

(** The text the extractor returns starts with an opening brace. *)
Lemma scrape_some_head (script text : pystr) :
  scrape_occupancy_data script = Some text -> exists t, text = LBRACE :: t.
Proof.
  intros H. apply scrape_some_span in H as (pre & body & post & _ & _ & _ & ->).
  apply format_scraped_json_head.
Qed.

(** What [json.loads] reads from the text of a span is a dict: in the
    pipeline [update] is never given a list, a string or a number. *)
Lemma scrape_loads_dict (script text : pystr) (v : json) :
  scrape_occupancy_data script = Some text ->
  json_loads (Some text) = Ok v ->
  exists record, v = JObject record /\ NoDup (List.map fst record).
Proof.
  intros Hs Hl. apply scrape_some_head in Hs as [t ->].
  destruct (json_loads_brace _ _ Hl) as [record ->].
  exists record. split; [reflexivity|]. eapply json_loads_keys; eauto.
Qed.

(** X12: What [json.loads] reads from the text of a span is a dict: in the
    pipeline [update] is never given a list, a string or a number. *)
Theorem scrape_script_parses_dict (script text : pystr) (v : json) :
  scrape_occupancy_data script = Some text ->
  json_loads (Some text) = Ok v ->
  exists record, v = JObject record /\ NoDup (List.map fst record).
Proof. intros. eapply scrape_loads_dict; eassumption. Qed.

Lemma scrape_script_parses_dict_witness :
  exists record,
    JObject [(str "ARC", JObject [(str "count", JInt 3)])] = JObject record
    /\ NoDup (List.map fst record).
Proof.
  apply (scrape_script_parses_dict
           (str "var data = {'ARC': {'count': 3,    }};")
           (dq "{'ARC': {'count': 3}}"));
    vm_compute; reflexivity.
Defined.

Section PipelineOutcomes.
Context {R : Repr}.

(** X13: The pipeline returns a row exactly when the script holds a span
    whose normalised text [json.loads] reads as a dict in which each
    facility code of the row is absent or complete. *)
Theorem scrape_script_returns (now : datetime) (script : pystr) :
  (exists row, scrape_script now script = Ok row)
  <-> exists text record,
        scrape_occupancy_data script = Some text
        /\ json_loads (Some text) = Ok (JObject record)
        /\ complete record.
Proof.
  unfold scrape_script. split.
  - intros [row Hrow].
    destruct (scrape_occupancy_data script) as [text|] eqn:Hs; [|discriminate Hrow].
    destruct (json_loads (Some text)) as [v|e] eqn:Hl.
    + destruct (scrape_loads_dict _ _ _ Hs Hl) as (record & -> & _).
      exists text, record. split; [reflexivity|]. split; [exact Hl|].
      apply (json_to_row_ok_iff now _ _ Hl). eauto.
    + unfold json_to_row in Hrow. rewrite Hl in Hrow. discriminate Hrow.
  - intros (text & record & -> & Hl & Hc).
    now apply (json_to_row_ok_iff now _ _ Hl).
Qed.


End PipelineOutcomes.


Lemma json_to_row_record_witness :
  @json_to_row a_repr a_clock (Some (dq "{'UPL': {'count': 5, 'capacity': 14}}"))
  = (cells <- collect
                (fun cf =>
                   @field_value a_repr
                     [(str "UPL", JObject [(str "count", JInt 5);
                                           (str "capacity", JInt 14)])]
                     (str (fst cf)) (str (snd cf)))
                slots ;;
     Ok (isoformat [SPACE] a_clock :: cells))%result.
Proof.
  apply (@json_to_row_record a_repr). vm_compute. reflexivity.
Defined.

Lemma json_to_row_returns_witness :
  (exists row,
      @json_to_row a_repr a_clock (Some (dq "{'UPL': {'count': 5}}")) = Ok row)
  <-> complete [(str "UPL", JObject [(str "count", JInt 5)])].
Proof.
  apply (@json_to_row_returns a_repr). vm_compute. reflexivity.
Defined.

Lemma json_to_row_slots_witness :
  exists count capacity,
    nth_error
      (str "2020-07-04 09:30:05.001200" :: repeat [] 18 ++ [str "5"; str "14"])
      (1 + 2 * 9) = Some count
    /\ nth_error
         (str "2020-07-04 09:30:05.001200" :: repeat [] 18 ++ [str "5"; str "14"])
         (2 + 2 * 9) = Some capacity
    /\ @field_value a_repr
         [(str "UPL", JObject [(str "count", JInt 5); (str "capacity", JInt 14)])]
         (str "UPL") (str "count") = Ok count
    /\ @field_value a_repr
         [(str "UPL", JObject [(str "count", JInt 5); (str "capacity", JInt 14)])]
         (str "UPL") (str "capacity") = Ok capacity.
Proof.
  apply (@json_to_row_slots a_repr a_clock
           (Some (dq "{'UPL': {'count': 5, 'capacity': 14}}")));
    vm_compute; reflexivity.
Defined.

Lemma json_to_row_absent_witness :
  nth_error
    (str "2020-07-04 09:30:05.001200" :: repeat [] 18 ++ [str "5"; str "14"])
    (1 + 2 * 0) = Some []
  /\ nth_error
       (str "2020-07-04 09:30:05.001200" :: repeat [] 18 ++ [str "5"; str "14"])
       (2 + 2 * 0) = Some [].
Proof.
  apply (@json_to_row_absent a_repr a_clock
           (Some (dq "{'UPL': {'count': 5, 'capacity': 14}}"))
           [(str "UPL", JObject [(str "count", JInt 5); (str "capacity", JInt 14)])]
           _ 0 "ARC"%string);
    vm_compute; reflexivity.
Defined.

(* ================================================================== *)
(** * What the normaliser keeps *)
(* ================================================================== *)

Lemma is_linebreak_space (c : char) : is_linebreak c = true -> is_space c = true.
Proof.
  unfold is_linebreak. cbn [existsb]. rewrite !orb_true_iff. unfold char_eqb.
  intros H. decompose [or] H; try discriminate;
    match goal with E : (_ =? _)%N = true |- _ => apply N.eqb_eq in E; subst c end;
    reflexivity.
Qed.

Lemma is_space_not_brace (c : char) : is_space c = true -> is_brace c = false.
Proof.
  intros Hs. destruct (is_brace c) eqn:E; [|reflexivity].
  unfold is_brace in E. apply orb_true_iff in E as [E|E];
    apply char_eqb_eq in E; subst c; discriminate Hs.
Qed.

Section Keeps.

(** A class of characters that holds no blank. *)
Variable p : char -> bool.
Hypothesis p_space : forall c, is_space c = true -> p c = false.

Lemma filter_lstrip (s : pystr) : filter p (lstrip s) = filter p s.
Proof.
  induction s as [|x s IH]; simpl; [reflexivity|].
  destruct (is_space x) eqn:E; [|reflexivity].
  now rewrite (p_space _ E).
Qed.

Lemma filter_strip (s : pystr) : filter p (strip s) = filter p s.
Proof.
  unfold strip, rstrip.
  now rewrite filter_rev, filter_lstrip, <- filter_rev, rev_involutive, filter_lstrip.
Qed.

Lemma filter_replace (o : char) (old' new : pystr) :
  filter p (o :: old') = filter p new ->
  forall s, filter p (replace (o :: old') new s) = filter p s.
Proof.
  intros Hp.
  assert (Hn : forall n s, length s <= n ->
             filter p (replace (o :: old') new s) = filter p s).
  { induction n as [|n IH]; intros s Hlen.
    - destruct s; [reflexivity | simpl in Hlen; lia].
    - destruct s as [|x s]; [reflexivity|].
      destruct (startswith (o :: old') (x :: s)) eqn:Hm.
      + rewrite replace_match by exact Hm.
        rewrite filter_app, IH, <- Hp, <- filter_app.
        * f_equal. apply startswith_prefix in Hm as [r Hr]. rewrite Hr at 2.
          rewrite Hr, skipn_app, skipn_all, Nat.sub_diag. reflexivity.
        * rewrite length_skipn. simpl in *. lia.
      + rewrite replace_nomatch by exact Hm. cbn [filter].
        rewrite IH; [reflexivity|]. simpl in Hlen. lia. }
  intros s. now apply (Hn (length s)).
Qed.

Lemma filter_join_lines (g : pystr -> pystr) (lines : list pystr) :
  (forall x, filter p (g x) = filter p x) ->
  filter p (join [LF] (List.map g lines)) = filter p (concat lines).
Proof.
  intros Hg. induction lines as [|x [|y lines] IH]; [reflexivity | |].
  - simpl. now rewrite Hg, app_nil_r.
  - change (join [LF] (List.map g (x :: y :: lines)))
      with (g x ++ [LF] ++ join [LF] (List.map g (y :: lines))).
    rewrite !filter_app, IH, Hg. cbn [filter concat].
    rewrite (p_space LF) by reflexivity. cbn [app]. now rewrite !filter_app.
Qed.

Lemma filter_splitlines (n : nat) :
  forall s cur, length s <= n ->
    filter p (concat (splitlines_from cur s)) = filter p (cur ++ s).
Proof.
  induction n as [|n IH]; intros s cur Hn.
  - destruct s; [|simpl in Hn; lia]. simpl.
    destruct cur; simpl; now rewrite ?app_nil_r.
  - destruct s as [|y s].
    + simpl. destruct cur; simpl; now rewrite ?app_nil_r.
    + cbn [splitlines_from]. simpl in Hn. destruct (is_linebreak y) eqn:Hy.
      * cbn [concat]. rewrite !filter_app. f_equal. cbn [filter].
        rewrite (p_space y) by now apply is_linebreak_space.
        destruct s as [|y' s']; [reflexivity|].
        destruct (char_eqb y CR && char_eqb y' LF) eqn:E.
        -- apply andb_true_iff in E as [_ E]. apply char_eqb_eq in E. subst y'.
           rewrite (IH s' []) by (simpl in Hn; lia). cbn [app filter].
           now rewrite (p_space LF) by reflexivity.
        -- now rewrite (IH (y' :: s') []) by lia.
      * rewrite (IH s (cur ++ [y])) by lia. now rewrite <- app_assoc.
Qed.

(** X5: The normaliser keeps, in their order, the characters of any class
    that holds no blank, no quote and no comma: letters, digits, colons
    and braces pass through it untouched. *)
Theorem format_scraped_json_keeps (data : pystr) :
  p SQUOTE = false -> p DQUOTE = false -> p COMMA = false ->
  filter p (format_scraped_json data) = filter p data.
Proof.
  intros Hs Hd Hc. unfold format_scraped_json, trimmed_lines.
  rewrite !filter_replace.
  - rewrite filter_join_lines.
    + unfold splitlines. now rewrite (filter_splitlines (length data)).
    + intros x. rewrite filter_replace; [apply filter_strip|].
      simpl. now rewrite Hs, Hd.
  - simpl. now rewrite Hc.
  - simpl. rewrite Hc, (p_space 32%N) by reflexivity. reflexivity.
Qed.

End Keeps.

Lemma format_scraped_json_keeps_witness :
  filter is_brace (format_scraped_json (str "{ 'a': {'b': 1,    }, }"))
  = filter is_brace (str "{ 'a': {'b': 1,    }, }").
Proof.
  apply (format_scraped_json_keeps is_brace is_space_not_brace); reflexivity.
Defined.

(** Where the second replacement leaves a comma, four blanks and a
    closing brace, the brace is what it put for a second such run. *)
Lemma second_replace_head_blanks (s t : pystr) :
  replace (COMMA :: str "    }") [RBRACE] s
  = [COMMA; SPACE; SPACE; SPACE; SPACE; RBRACE] ++ t ->
  exists r, s = [COMMA; SPACE; SPACE; SPACE; SPACE;
                 COMMA; SPACE; SPACE; SPACE; SPACE; RBRACE] ++ r.
Proof.
  intros H. simpl in H.
  replace_step H H0; [discriminate H|].
  do 4 (replace_step H H1; [discriminate H|]; clear H1).
  replace_step H H2.
  - apply startswith_prefix in H2 as [r ->]. now exists r.
  - cbv in H0. discriminate H0.
Qed.

Lemma first_replace_head_two_runs (s t : pystr) :
  replace [COMMA; LF; RBRACE] [LF; RBRACE] s
  = [COMMA; SPACE; SPACE; SPACE; SPACE;
     COMMA; SPACE; SPACE; SPACE; SPACE; RBRACE] ++ t ->
  exists r, s = [COMMA; SPACE; SPACE; SPACE; SPACE;
                 COMMA; SPACE; SPACE; SPACE; SPACE; RBRACE] ++ r.
Proof.
  intros H. simpl in H.
  do 11 (replace_step H H0; [discriminate H|]; clear H0).
  eexists. reflexivity.
Qed.

(** X6: No comma followed by four blanks and a closing brace is left in
    the normalised text, unless the trimmed text holds two such runs
    of comma and blanks, one behind the other, before the brace. *)
Theorem format_scraped_json_blank_commas (data : pystr) :
  contains (COMMA :: str "    ,    }") (trimmed_lines data) = false ->
  contains (COMMA :: str "    }") (format_scraped_json data) = false.
Proof.
  intros H1.
  destruct (contains (COMMA :: str "    }") (format_scraped_json data)) eqn:E;
    [|reflexivity].
  apply contains_occurs in E. unfold format_scraped_json in E.
  destruct comma_not_in_replacements as [Hin1 Hin2].
  apply (occurs_replace COMMA (str "    }") [RBRACE]
           (occurs (COMMA :: str "    ,    }")) COMMA (str "    }")) in E.
  - apply (occurs_replace COMMA [LF; RBRACE] [LF; RBRACE]
             (occurs (COMMA :: str "    ,    }")) COMMA (str "    ,    }")) in E.
    + apply contains_occurs in E. congruence.
    + exact Hin1.
    + intros c s. apply occurs_cons.
    + intros s t Hs. apply first_replace_head_two_runs in Hs as [r ->].
      apply occurs_prefix.
  - exact Hin2.
  - intros c s. apply occurs_cons.
  - intros s t Hs. apply second_replace_head_blanks in Hs as [r ->].
    apply occurs_prefix.
Qed.

Lemma format_scraped_json_blank_commas_witness :
  contains (COMMA :: str "    }")
    (format_scraped_json (str "{'a': {'b': 1,    },    }"))
  = false.
Proof.
  apply format_scraped_json_blank_commas. vm_compute. reflexivity.
Defined.

Lemma collect_ext_in {A B} (f g : A -> result B) (l : list A) :
  (forall a, In a l -> f a = g a) -> collect f l = collect g l.
Proof.
  induction l as [|a l IH]; intros H; simpl; [reflexivity|].
  rewrite (H a) by now left. rewrite IH; [reflexivity|].
  intros a' Ha. apply H. now right.
Qed.

(** X11: The row depends on the dict only through what it holds under the
    ten facility codes: entries under any other key are never read. *)
Theorem json_to_row_other_keys `{Repr}
    (now : datetime) (data1 data2 : option pystr)
    (record1 record2 : list (pystr * json)) :
  json_loads data1 = Ok (JObject record1) ->
  json_loads data2 = Ok (JObject record2) ->
  (forall code, In code facility_codes ->
     dict_get record1 (str code) = dict_get record2 (str code)) ->
  json_to_row now data1 = json_to_row now data2.
Proof.
  intros H1 H2 He.
  rewrite (json_to_row_collect now _ _ H1), (json_to_row_collect now _ _ H2).
  f_equal. apply collect_ext_in. intros cf Hcf.
  apply in_slots in Hcf as (code & Hc & Hcf). unfold field_value.
  destruct Hcf as [E|E]; subst cf; cbn [fst snd]; now rewrite (He code Hc).
Qed.

Lemma json_to_row_other_keys_witness :
  @json_to_row a_repr a_clock
    (Some (dq "{'UPL': {'count': 5, 'capacity': 14}, 'XYZ': [1, 2]}"))
  = @json_to_row a_repr a_clock
      (Some (dq "{'new': null, 'UPL': {'count': 5, 'capacity': 14}}")).
Proof.
  apply (@json_to_row_other_keys a_repr a_clock _ _
           [(str "UPL", JObject [(str "count", JInt 5); (str "capacity", JInt 14)]);
            (str "XYZ", JArray [JInt 1; JInt 2])]
           [(str "new", JNull);
            (str "UPL", JObject [(str "count", JInt 5); (str "capacity", JInt 14)])]).
  - vm_compute. reflexivity.
  - vm_compute. reflexivity.
  - intros code Hc. vm_compute in Hc.
    decompose [or] Hc; try contradiction; subst code; vm_compute; reflexivity.
Defined.
